(** * mlpack::mixed_logit_dcm::GaussianDistribution

    A shallow embedding of [gaussian_distribution.h]: the Gaussian
    distribution of the mixed logit discrete choice model, given by a mean
    and an upper-triangular Cholesky factor that are packed into one
    parameter vector.

    - C++ [int] is a 32-bit two's complement integer, modelled by [Z] with
      the wrap-around of every arithmetic operation written out ([Int]).
    - C++ [double] is IEEE 754 binary64, modelled by the primitive floats.
    - [std::vector<int>] and [arma::vec] are lists; an element access at an
      index outside the container has no defined behaviour in C++ and is the
      failure [OutOfRange] here.
    - [arma::mat] is modelled by its dimensions and its cell function.
    - A function that writes through a [PrivateData *] takes the context
      and returns the new one, or the failure that ends the call.
    - The linear algebra of Armadillo (matrix-vector product, triangular
      solve) is not part of the sources and is modelled from the
      specification; the Gaussian generator is a parameter of [DrawBeta]. *)

From Stdlib Require Import ZArith Lia.
From Stdlib Require Import Floats.PrimFloat.
From stdpp Require Import base numbers option list relations.

Local Open Scope Z_scope.

(** ** Outcomes of a call *)

Inductive failure : Set :=
| OutOfRange           (* element access outside a vector or a matrix *)
| LengthError          (* a container asked to take a negative size *)
| SizeMismatch.        (* linear-algebra operands of non-conforming sizes *)

Inductive outcome (A : Type) : Type :=
| Ok (a : A)
| Fail (e : failure).
Arguments Ok {A} a.
Arguments Fail {A} e.

#[global] Instance outcome_ret : MRet outcome := fun A a => Ok a.
#[global] Instance outcome_bind : MBind outcome := fun A B f m =>
  match m with
  | Ok a => f a
  | Fail e => Fail e
  end.

(** ** 32-bit signed integers *)

Module Int.

Definition min_signed : Z := -2147483648.
Definition max_signed : Z := 2147483647.
Definition modulus : Z := 4294967296.

Definition in_range (z : Z) : Prop := min_signed <= z <= max_signed.

(** The representative of [z] modulo 2^32 in the signed range. *)
Definition wrap (z : Z) : Z := (z - min_signed) mod modulus + min_signed.

Definition add (a b : Z) : Z := wrap (a + b).
Definition sub (a b : Z) : Z := wrap (a - b).
Definition mul (a b : Z) : Z := wrap (a * b).
(** C++ [/] truncates toward zero. *)
Definition div (a b : Z) : Z := wrap (a ÷ b).

End Int.

(** ** Containers *)

(** [v[i]] as an rvalue, for [std::vector] and [arma::vec] alike: neither
    [operator[]] checks its index. *)
Definition at_index {A : Type} (v : list A) (i : Z) : outcome A :=
  if 0 <=? i then
    match v !! Z.to_nat i with
    | Some x => Ok x
    | None => Fail OutOfRange
    end
  else Fail OutOfRange.

(** [v[i] = x]. *)
Definition store {A : Type} (v : list A) (i : Z) (x : A) : outcome (list A) :=
  if (0 <=? i) && (i <? Z.of_nat (length v)) then Ok (<[Z.to_nat i := x]> v)
  else Fail OutOfRange.

(** [v.resize(n)] with an [int] argument: a negative [n] converts to a size
    beyond [max_size()]. New elements are value-initialised. *)
Definition resize (v : list Z) (n : Z) : outcome (list Z) :=
  if n <? 0 then Fail LengthError
  else Ok (take (Z.to_nat n) v ++ replicate (Z.to_nat n - length v)%nat 0).

(** [std::fill(v.begin(), v.end(), x)]. *)
Definition fill {A : Type} (v : list A) (x : A) : list A :=
  replicate (length v) x.

(** [arma::vec(ptr, n, false)]: a view of the first [n] elements of the
    memory of [v], without a copy. *)
Definition view (v : list float) (n : nat) : outcome (list float) :=
  if (n <=? length v)%nat then Ok (take n v) else Fail OutOfRange.

Module arma.

Record mat : Type := Mat {
  n_rows : Z;
  n_cols : Z;
  cells : Z -> Z -> float
}.

(** A default-constructed matrix has no elements. *)
Definition empty : mat := Mat 0 0 (fun _ _ => 0%float).

Definition in_bounds (m : mat) (r c : Z) : bool :=
  (0 <=? r) && (r <? n_rows m) && (0 <=? c) && (c <? n_cols m).

(** [m.zeros(r, c)]: resize to [r] by [c] and set every element to zero. *)
Definition zeros (r c : Z) : outcome mat :=
  if (r <? 0) || (c <? 0) then Fail LengthError
  else Ok (Mat r c (fun _ _ => 0%float)).

(** [m.at(r, c) = x]; [at] does not check its indices. *)
Definition store_at (m : mat) (r c : Z) (x : float) : outcome mat :=
  if in_bounds m r c then
    Ok (Mat (n_rows m) (n_cols m)
          (fun r' c' => if (r' =? r) && (c' =? c) then x else cells m r' c'))
  else Fail OutOfRange.

(** The rows of a matrix, for display and comparison. *)
Definition rows (m : mat) : list (list float) :=
  (fun r => cells m r <$> seqZ 0 (n_cols m)) <$> seqZ 0 (n_rows m).

(** Elementwise [a - b] and [a + b]. *)
Definition vec_sub (a b : list float) : outcome (list float) :=
  if (length a =? length b)%nat then Ok (zip_with PrimFloat.sub a b)
  else Fail SizeMismatch.

Definition vec_add (a b : list float) : outcome (list float) :=
  if (length a =? length b)%nat then Ok (zip_with PrimFloat.add a b)
  else Fail SizeMismatch.

(** Modelled from the spec: the dense matrix-vector multiply of Armadillo,
    which the source calls as [cholesky_factor_ * random_gaussian_vector]
    and which is not part of the sources. Entry [r] of the product is the
    sum over [c] of [m(r, c) * z[c]], accumulated from column [c] on. *)
Fixpoint dot_from (m : mat) (r c : Z) (z : list float) (acc : float) : float :=
  match z with
  | [] => acc
  | x :: z' => dot_from m r (c + 1) z' (PrimFloat.add acc (PrimFloat.mul (cells m r c) x))
  end.

Definition mat_vec (m : mat) (z : list float) : outcome (list float) :=
  if n_cols m =? Z.of_nat (length z)
  then Ok ((fun r => dot_from m r 0 z 0%float) <$> seqZ 0 (n_rows m))
  else Fail SizeMismatch.

(** Modelled from the spec: the triangular linear solve [arma::solve],
    which is not part of the sources and which the specification gives as
    a primitive from a triangular matrix and a right-hand side to a vector.
    For an upper-triangular [m] it is back substitution,
    [x_r = (b_r - sum_{c > r} m(r, c) * x_c) / m(r, r)] from the last row
    up, in IEEE 754 arithmetic: no pivot is tested, and a division by a zero
    diagonal entry gives an infinity or a NaN. [back_subst m r b] solves the
    rows from [r] on, [b] holding the right-hand sides of these rows. *)
Fixpoint back_subst (m : mat) (r : Z) (b : list float) : list float :=
  match b with
  | [] => []
  | b_r :: b' =>
      let x := back_subst m (r + 1) b' in
      PrimFloat.div (PrimFloat.sub b_r (dot_from m r (r + 1) x 0%float))
                    (cells m r r) :: x
  end.

Definition solve (m : mat) (b : list float) : outcome (list float) :=
  if (n_rows m =? n_cols m) && (n_rows m =? Z.of_nat (length b))
  then Ok (back_subst m 0 b)
  else Fail SizeMismatch.

End arma.

(** ** The class [GaussianDistribution] *)

Module GaussianDistribution.

Record PrivateData : Type := mkPrivateData {
  cholesky_factor_dimension_ : Z;
  num_cholesky_factor_entries_ : Z;
  nonzero_column_indices_ : list Z;
  start_indices_ : list Z;
  (* the cached solution to the upper triangular linear system *)
  cached_solution_ : list float;
  cholesky_factor_ : arma.mat
}.

(** The constructor [PrivateData()]. *)
Definition PrivateData_new : PrivateData :=
  mkPrivateData 0 0 [] [] [] arma.empty.

Definition with_cholesky_factor (pd : PrivateData) (m : arma.mat) : PrivateData :=
  mkPrivateData (cholesky_factor_dimension_ pd) (num_cholesky_factor_entries_ pd)
    (nonzero_column_indices_ pd) (start_indices_ pd) (cached_solution_ pd) m.

Definition with_cached_solution (pd : PrivateData) (x : list float) : PrivateData :=
  mkPrivateData (cholesky_factor_dimension_ pd) (num_cholesky_factor_entries_ pd)
    (nonzero_column_indices_ pd) (start_indices_ pd) x (cholesky_factor_ pd).

(** The four locals [limit], [add], [row_num] and [start] with which both
    [Init] and [SetupCholeskyFactor_] walk the triangle row by row. *)
Record cursor : Type := mkCursor {
  limit : Z;
  add : Z;
  row_num : Z;
  start : Z
}.

Definition cursor_init (dimension : Z) : cursor :=
  mkCursor dimension (Int.sub dimension 1) 0 0.

(** [if(i == limit) { limit += add; add--; row_num++; start = i; }] *)
Definition advance (i : Z) (c : cursor) : cursor :=
  if i =? limit c
  then mkCursor (Int.add (limit c) (add c)) (Int.sub (add c) 1)
                (Int.add (row_num c) 1) i
  else c.

(** The loop of [SetupCholeskyFactor_], [n] iterations from counter [i] on.
    The counter runs from 0 to [num_cholesky_factor_entries_] and the body
    changes neither, so the loop is entered with the number of iterations
    that are left. *)
Fixpoint SetupCholeskyFactor_loop (n : nat) (dimension i : Z) (c : cursor)
    (parameters : list float) (factor : arma.mat) : outcome arma.mat :=
  match n with
  | O => Ok factor
  | S n' =>
      let c := advance i c in
      x ← at_index parameters (Int.add dimension i);
      factor ← arma.store_at factor (row_num c)
                 (Int.sub (Int.add (row_num c) i) (start c)) x;
      SetupCholeskyFactor_loop n' dimension (Int.add i 1) c parameters factor
  end.

Definition SetupCholeskyFactor_ (parameters : list float) (private_data : PrivateData)
    : outcome PrivateData :=
  let dimension := cholesky_factor_dimension_ private_data in
  factor ← arma.zeros dimension dimension;
  factor ← SetupCholeskyFactor_loop
             (Z.to_nat (num_cholesky_factor_entries_ private_data))
             dimension 0 (cursor_init dimension) parameters factor;
  Ok (with_cholesky_factor private_data factor).

Definition SetupDistribution (parameters : list float) (private_data : PrivateData)
    : outcome PrivateData :=
  SetupCholeskyFactor_ parameters private_data.

Definition SamplingAccumulatePrecompute (parameters beta_vector : list float)
    (private_data : PrivateData) : outcome PrivateData :=
  mean_vector ← view parameters (length beta_vector);
  right_hand_side ← arma.vec_sub beta_vector mean_vector;
  x ← arma.solve (cholesky_factor_ private_data) right_hand_side;
  Ok (with_cached_solution private_data x).

Definition AttributeGradientWithRespectToParameter (private_data : PrivateData)
    (parameters beta_vector : list float) (row_index col_index : Z) : outcome float :=
  let num_attributes := Int.wrap (Z.of_nat (length beta_vector)) in
  if row_index <? num_attributes then
    if row_index =? col_index then Ok 1%float else Ok 0%float
  else
    nonzero_column_index ← at_index (nonzero_column_indices_ private_data) row_index;
    if nonzero_column_index =? col_index then
      start_index ← at_index (start_indices_ private_data) row_index;
      at_index (cached_solution_ private_data)
        (Int.add (Int.sub row_index start_index) nonzero_column_index)
    else Ok 0%float.

(** The loop of [Init], [n] iterations from counter [i] on. *)
Fixpoint Init_loop (n : nat) (dimension i : Z) (c : cursor)
    (nonzero_column_indices start_indices : list Z) : outcome (list Z * list Z) :=
  match n with
  | O => Ok (nonzero_column_indices, start_indices)
  | S n' =>
      let c := advance i c in
      nonzero_column_indices ←
        store nonzero_column_indices (Int.add dimension i) (row_num c);
      start_indices ←
        store start_indices (Int.add dimension i) (Int.add dimension (start c));
      Init_loop n' dimension (Int.add i 1) c nonzero_column_indices start_indices
  end.

(** [Init] returns [*num_parameters_out] next to the context. *)
Definition Init (attribute_dimensions_in : list Z) (private_data_out : PrivateData)
    : outcome (Z * PrivateData) :=
  num_attributes_in ← at_index attribute_dimensions_in 0;
  let num_parameters_out :=
    Int.div (Int.mul num_attributes_in (Int.add num_attributes_in 3)) 2 in
  let dimension := num_attributes_in in
  let entries := Int.div (Int.mul dimension (Int.add dimension 1)) 2 in
  nonzero_column_indices ←
    resize (nonzero_column_indices_ private_data_out) num_parameters_out;
  let nonzero_column_indices := fill nonzero_column_indices 0 in
  start_indices ← resize (start_indices_ private_data_out) num_parameters_out;
  let start_indices := fill start_indices 0 in
  '(nonzero_column_indices, start_indices) ←
    Init_loop (Z.to_nat entries) dimension 0 (cursor_init dimension)
      nonzero_column_indices start_indices;
  Ok (num_parameters_out,
      mkPrivateData dimension entries nonzero_column_indices start_indices
        (cached_solution_ private_data_out) (cholesky_factor_ private_data_out)).

(** [DrawBeta] reads its standard normal variates from
    [core::math::RandGaussian], which is not part of the sources: the
    generator is a parameter, a function of the standard deviation and of
    the generator's state. *)
Section RandomSource.

Context {rng : Type}.
Variable RandGaussian : float -> rng -> float * rng.

(** [n] successive calls of [RandGaussian(1.0)]. *)
Fixpoint draw (n : nat) (g : rng) : list float * rng :=
  match n with
  | O => ([], g)
  | S n' =>
      let '(x, g) := RandGaussian 1%float g in
      let '(xs, g) := draw n' g in
      (x :: xs, g)
  end.

Definition DrawBeta (private_data : PrivateData) (parameters : list float) (g : rng)
    : outcome (list float) * rng :=
  let n_cols := Z.to_nat (arma.n_cols (cholesky_factor_ private_data)) in
  let '(random_gaussian_vector, g) := draw n_cols g in
  (mean ← view parameters n_cols;
   product ← arma.mat_vec (cholesky_factor_ private_data) random_gaussian_vector;
   arma.vec_add product mean, g).

End RandomSource.

End GaussianDistribution.

Import GaussianDistribution.

(** * Vocabulary of the statements *)

(** ** Sizes *)

(** The largest dimension for which [K * (K + 3)] still is an [int]. *)
Definition max_dimension : Z := 46339.

(** Number of parameters and of factor entries for dimension [K]. *)
Definition num_parameters (K : Z) : Z := K * (K + 3) / 2.
Definition num_cholesky_entries (K : Z) : Z := K * (K + 1) / 2.

(** ** The cursor of the walk over the triangle *)

(** What the cursor satisfies in iteration [i] once [advance] is done: it
    is in row [row_num], whose first entry has counter [start] and whose
    last entry comes before [limit]. *)
Definition cursor_ok (K i : Z) (c : cursor) : Prop :=
  0 <= row_num c < K /\
  add c = K - 1 - row_num c /\
  limit c = start c + (K - row_num c) /\
  2 * start c = row_num c * (2 * K - row_num c + 1) /\
  start c <= i < limit c.

(** What it satisfies when iteration [i] begins. *)
Definition cursor_pre (K i : Z) (c : cursor) : Prop :=
  0 <= row_num c < K /\
  add c = K - 1 - row_num c /\
  limit c = start c + (K - row_num c) /\
  2 * start c = row_num c * (2 * K - row_num c + 1) /\
  start c <= i <= limit c.

(** Entry [j] of the triangle lies in row [r], whose first entry is entry
    [s]: the rows before [r] hold [r * (2 * K - r + 1) / 2] entries. *)
Definition in_row (K r s j : Z) : Prop :=
  0 <= r < K /\ 2 * s = r * (2 * K - r + 1) /\ s <= j < s + (K - r).

(** ** Contexts *)

(** The layout of a context for dimension [K]: the two sizes, and in both
    tables zero for the mean parameters and, for the parameter [row] of a
    factor entry, the row of the entry and the parameter at which this row
    starts. *)
Record layout (K : Z) (pd : PrivateData) : Prop := {
  layout_dimension : cholesky_factor_dimension_ pd = K;
  layout_entries : num_cholesky_factor_entries_ pd = num_cholesky_entries K;
  layout_nonzero_length :
    Z.of_nat (length (nonzero_column_indices_ pd)) = num_parameters K;
  layout_start_length :
    Z.of_nat (length (start_indices_ pd)) = num_parameters K;
  layout_mean : forall row, 0 <= row < K ->
    at_index (nonzero_column_indices_ pd) row = Ok 0 /\
    at_index (start_indices_ pd) row = Ok 0;
  layout_factor : forall row, K <= row < num_parameters K ->
    exists r s,
      at_index (nonzero_column_indices_ pd) row = Ok r /\
      at_index (start_indices_ pd) row = Ok (K + s) /\
      in_row K r s (row - K)
}.

(** The contexts for dimension [K]: what [Init] returns for [K], and what
    the two updates make of such a context. *)
Inductive context_for (K : Z) : PrivateData -> Prop :=
| context_Init (v : list Z) (pd0 pd : PrivateData) (np : Z) :
    at_index v 0 = Ok K -> Init v pd0 = Ok (np, pd) -> context_for K pd
| context_SetupDistribution (parameters : list float) (pd pd' : PrivateData) :
    context_for K pd -> SetupDistribution parameters pd = Ok pd' ->
    context_for K pd'
| context_SamplingAccumulatePrecompute
    (parameters beta_vector : list float) (pd pd' : PrivateData) :
    context_for K pd ->
    SamplingAccumulatePrecompute parameters beta_vector pd = Ok pd' ->
    context_for K pd'.

(** One update of a context: a parameter change or a draw. *)
Inductive update : PrivateData -> PrivateData -> Prop :=
| update_SetupDistribution (parameters : list float) (pd pd' : PrivateData) :
    SetupDistribution parameters pd = Ok pd' -> update pd pd'
| update_SamplingAccumulatePrecompute
    (parameters beta_vector : list float) (pd pd' : PrivateData) :
    SamplingAccumulatePrecompute parameters beta_vector pd = Ok pd' ->
    update pd pd'.

(** What [Init] makes known of the layout: the number of parameters, the
    dimension, the number of factor entries and the two tables. *)
Definition Init_layout (attribute_dimensions_in : list Z) (pd : PrivateData)
    : outcome (Z * (Z * Z * list Z * list Z)) :=
  '(np, pd') ← Init attribute_dimensions_in pd;
  Ok (np, (cholesky_factor_dimension_ pd', num_cholesky_factor_entries_ pd',
           nonzero_column_indices_ pd', start_indices_ pd')).

(** ** Parameter vectors and factors *)

(** Row [r] of an upper-triangular factor contributes its diagonal entry
    and all entries to its right. *)
Definition upper_row (F : arma.mat) (K r : Z) : list float :=
  arma.cells F r <$> seqZ r (K - r).

(** The parameter vector of the data model: the mean first, then the upper
    entries of the factor, row by row. *)
Definition pack (K : Z) (mean : list float) (F : arma.mat) : list float :=
  mean ++ concat (upper_row F K <$> seqZ 0 K).

(** [v != 0.0] in C++. *)
Definition nonzero (v : float) : Prop := PrimFloat.eqb v 0%float = false.

Definition upper_triangular (F : arma.mat) : Prop :=
  forall r c, 0 <= c < r -> r < arma.n_rows F -> arma.cells F r c = 0%float.

(** ** Worked contexts *)

(** The context for [K = 1] after [Init], after [SetupDistribution] with the
    parameters [mu; c] and after [SamplingAccumulatePrecompute] for the draw
    [b]. *)
Definition run_K1 (mu c b : float) : outcome PrivateData :=
  '(_, pd) ← Init [1] PrivateData_new;
  pd ← SetupDistribution [mu; c] pd;
  SamplingAccumulatePrecompute [mu; c] [b] pd.

Definition context_of (run : outcome PrivateData) : PrivateData :=
  match run with
  | Ok pd => pd
  | Fail _ => PrivateData_new
  end.

Definition context_K1_Init : PrivateData :=
  Eval vm_compute in context_of ('(_, pd) ← Init [1] PrivateData_new; Ok pd).

Definition context_K1_Setup : PrivateData :=
  Eval vm_compute in
    context_of (SetupDistribution [0%float; 2%float] context_K1_Init).

(** Parameters [0; 2] and draw [2]: the cached solution is [1]. *)
Definition context_K1 : PrivateData :=
  Eval vm_compute in context_of (run_K1 0 2 2).

(** Parameters [0; 2] and draw [0], the mean itself: the cached solution
    is [0]. *)
Definition context_K1_at_mean : PrivateData :=
  Eval vm_compute in context_of (run_K1 0 2 0).

Definition context_K2_Init : PrivateData :=
  Eval vm_compute in context_of ('(_, pd) ← Init [2] PrivateData_new; Ok pd).

Definition factor_K2 : arma.mat :=
  arma.Mat 2 2 (fun r c =>
    match r, c with
    | 0, 0 => 3%float
    | 0, 1 => 4%float
    | 1, 1 => 5%float
    | _, _ => 0%float
    end).

(** ** Positions in the triangle *)

(** The number of factor entries in the rows before row [r]. *)
Definition row_start (K r : Z) : Z := r * (2 * K - r + 1) / 2.

(** The index in the parameter vector of the factor entry in row [r] and
    column [c], for [r <= c]: the mean, the rows before [r], then the
    entries of row [r] from the diagonal on. *)
Definition param_index (K r c : Z) : Z := K + row_start K r + (c - r).

(** The contexts for [K = 2] with the parameters [1; 2; 3; 4; 5], after
    [SetupDistribution] and after [SamplingAccumulatePrecompute] for the
    draw [2; 3]. *)
Definition context_K2_Setup : PrivateData :=
  Eval vm_compute in
    context_of (SetupDistribution [1; 2; 3; 4; 5]%float context_K2_Init).

Definition context_K2 : PrivateData :=
  Eval vm_compute in
    context_of (SamplingAccumulatePrecompute [1; 2; 3; 4; 5]%float [2; 3]%float
                  context_K2_Setup).


(** What [Init] returns for the dimension 65535, whose products
    [K * (K + 3)] and [K * (K + 1)] are beyond the range of [int]: room for
    32767 parameters and a negative number of factor entries. *)
Definition context_K65535 : PrivateData :=
  mkPrivateData 65535 (-32768)
    (replicate (Z.to_nat 32767) 0) (replicate (Z.to_nat 32767) 0)
    [] arma.empty.

(** The [K] by [K] factor with ones on the diagonal. *)
Definition identity_factor (K : Z) : arma.mat :=
  arma.Mat K K (fun r c => if r =? c then 1%float else 0%float).

(** A generator that returns 1 at every call. *)
Definition constant_one (sd : float) (g : unit) : float * unit := (1%float, g).

(** * Verification *)

Ltac int_range :=
  unfold Int.in_range, Int.min_signed, Int.max_signed, max_dimension in *; lia.

(** ** Integer arithmetic within range *)

Lemma wrap_in_range (z : Z) : Int.in_range z -> Int.wrap z = z.
Proof.
  unfold Int.in_range, Int.wrap, Int.min_signed, Int.max_signed, Int.modulus.
  intros Hz. rewrite Z.mod_small; lia.
Qed.

Lemma num_cholesky_entries_double (K : Z) :
  0 <= K -> 2 * num_cholesky_entries K = K * (K + 1).
Proof.
  intros HK. unfold num_cholesky_entries.
  assert (H : (K * (K + 1)) mod 2 = 0).
  { rewrite Z.mul_mod by lia.
    destruct (Z.mod_pos_bound K 2) as [? ?]; [lia|].
    assert (Hc : K mod 2 = 0 \/ K mod 2 = 1) by lia.
    destruct Hc as [Hc|Hc]; rewrite Hc.
    - reflexivity.
    - rewrite <- Zplus_mod_idemp_l, Hc. reflexivity. }
  pose proof (Z.div_mod (K * (K + 1)) 2). lia.
Qed.

Lemma num_parameters_split (K : Z) :
  0 <= K -> num_parameters K = K + num_cholesky_entries K.
Proof.
  intros HK. unfold num_parameters.
  replace (K * (K + 3)) with (K * (K + 1) + K * 2) by lia.
  rewrite Z.div_add by lia. unfold num_cholesky_entries. lia.
Qed.

Lemma num_parameters_bound (K : Z) :
  1 <= K <= max_dimension -> K < num_parameters K <= 1073720969.
Proof.
  unfold max_dimension. intros HK.
  rewrite num_parameters_split by lia.
  pose proof (num_cholesky_entries_double K). nia.
Qed.

(** ** The walk over the triangle *)

Lemma cursor_init_pre (K : Z) :
  1 <= K <= max_dimension -> cursor_pre K 0 (cursor_init K).
Proof.
  unfold max_dimension, cursor_pre, cursor_init, Int.sub. intros HK. simpl.
  rewrite wrap_in_range by (unfold Int.in_range, Int.min_signed, Int.max_signed; lia).
  lia.
Qed.

Lemma cursor_ok_pre (K i : Z) (c : cursor) :
  cursor_ok K i c -> cursor_pre K (i + 1) c.
Proof. unfold cursor_ok, cursor_pre. intuition lia. Qed.

Lemma advance_ok (K i : Z) (c : cursor) :
  1 <= K <= max_dimension ->
  cursor_pre K i c -> i < num_cholesky_entries K ->
  cursor_ok K i (advance i c).
Proof.
  unfold max_dimension. intros HK (Hr & Ha & Hl & Hs & Hi) HE.
  pose proof (num_cholesky_entries_double K ltac:(lia)) as H2.
  unfold advance. destruct (Z.eqb_spec i (limit c)) as [->|Hne].
  - assert (Hrow : row_num c + 1 < K) by nia.
    unfold cursor_ok, Int.add, Int.sub. simpl.
    rewrite !wrap_in_range
      by (unfold Int.in_range, Int.min_signed, Int.max_signed; nia).
    repeat split; try lia; nia.
  - unfold cursor_ok. repeat split; lia.
Qed.

(** ** Element access *)

Lemma at_index_Ok {A : Type} (v : list A) (i : Z) (x : A) :
  at_index v i = Ok x <-> 0 <= i /\ v !! Z.to_nat i = Some x.
Proof.
  unfold at_index. destruct (Z.leb_spec 0 i) as [Hi|Hi].
  - destruct (v !! Z.to_nat i) as [y|]; split.
    + intros [= ->]. auto.
    + intros [_ [= ->]]. reflexivity.
    + discriminate.
    + intros [_ [=]].
  - split; [discriminate | lia].
Qed.

Lemma at_index_defined {A : Type} (v : list A) (i : Z) :
  0 <= i < Z.of_nat (length v) -> exists x, at_index v i = Ok x.
Proof.
  intros Hi. destruct (lookup_lt_is_Some_2 v (Z.to_nat i)) as [x Hx]; [lia|].
  exists x. apply at_index_Ok. split; [lia | exact Hx].
Qed.

Lemma store_Ok {A : Type} (v : list A) (i : Z) (x : A) :
  0 <= i < Z.of_nat (length v) -> store v i x = Ok (<[Z.to_nat i := x]> v).
Proof.
  intros Hi. unfold store.
  destruct (Z.leb_spec 0 i); [|lia]. destruct (Z.ltb_spec i (Z.of_nat (length v))); [|lia].
  reflexivity.
Qed.

Lemma at_index_insert {A : Type} (v : list A) (i p : Z) (x : A) :
  0 <= i < Z.of_nat (length v) ->
  at_index (<[Z.to_nat i := x]> v) p = if p =? i then Ok x else at_index v p.
Proof.
  intros Hi. unfold at_index. destruct (Z.eqb_spec p i) as [->|Hne].
  - destruct (Z.leb_spec 0 i); [|lia].
    rewrite list_lookup_insert_eq by lia. reflexivity.
  - destruct (Z.leb_spec 0 p); [|reflexivity].
    rewrite list_lookup_insert_ne by lia. reflexivity.
Qed.

(** ** The layout tables that [Init] builds *)

Lemma cursor_ok_in_row (K i : Z) (c : cursor) :
  cursor_ok K i c -> in_row K (row_num c) (start c) i.
Proof. unfold cursor_ok, in_row. intuition lia. Qed.

Lemma in_row_bounds (K r s j : Z) :
  1 <= K <= max_dimension -> in_row K r s j ->
  0 <= s <= j /\ j < num_cholesky_entries K.
Proof.
  unfold max_dimension. intros HK (Hr & Hs & Hj).
  pose proof (num_cholesky_entries_double K ltac:(lia)) as H2.
  split; [nia|].
  assert (2 * (s + (K - r)) <= K * (K + 1)) by nia. lia.
Qed.

Lemma Init_loop_spec (K : Z) (HK : 1 <= K <= max_dimension) :
  forall (n : nat) (i : Z) (c : cursor) (nz st : list Z),
    cursor_pre K i c -> 0 <= i ->
    i + Z.of_nat n = num_cholesky_entries K ->
    Z.of_nat (length nz) = num_parameters K ->
    Z.of_nat (length st) = num_parameters K ->
    exists nz' st',
      Init_loop n K i c nz st = Ok (nz', st') /\
      length nz' = length nz /\ length st' = length st /\
      (forall p, p < K + i ->
         at_index nz' p = at_index nz p /\ at_index st' p = at_index st p) /\
      (forall j, i <= j < num_cholesky_entries K ->
         exists r s, at_index nz' (K + j) = Ok r /\
                     at_index st' (K + j) = Ok (K + s) /\ in_row K r s j).
Proof.
  pose proof (num_parameters_bound K HK) as Hnp.
  pose proof (num_parameters_split K ltac:(lia)) as Hsplit.
  induction n as [|n IH]; intros i c nz st Hpre Hi Hn Hlnz Hlst.
  - exists nz, st. simpl. repeat split; auto. intros j Hj. lia.
  - assert (HiE : i < num_cholesky_entries K) by lia.
    pose proof (advance_ok K i c HK Hpre HiE) as Hok.
    pose proof (cursor_ok_in_row _ _ _ Hok) as Hrow.
    pose proof (in_row_bounds _ _ _ _ HK Hrow) as [Hs0 _].
    destruct Hok as (Hr & _). set (c' := advance i c) in *.
    simpl. fold c'. unfold Int.add.
    rewrite !wrap_in_range by int_range.
    rewrite (store_Ok nz) by lia. simpl.
    rewrite (store_Ok st) by lia. simpl.
    destruct (IH (i + 1) c' (<[Z.to_nat (K + i) := row_num c']> nz)
                (<[Z.to_nat (K + i) := K + start c']> st))
      as (nz' & st' & Hrun & Hl1 & Hl2 & Hbelow & Hfrom).
    + apply cursor_ok_pre. apply advance_ok; assumption.
    + lia.
    + lia.
    + rewrite length_insert. exact Hlnz.
    + rewrite length_insert. exact Hlst.
    + exists nz', st'. rewrite Hrun. rewrite !length_insert in *.
      repeat split; auto.
      * destruct (Hbelow p ltac:(lia)) as [-> _].
        rewrite at_index_insert by lia.
        destruct (Z.eqb_spec p (K + i)); [lia | reflexivity].
      * destruct (Hbelow p ltac:(lia)) as [_ ->].
        rewrite at_index_insert by lia.
        destruct (Z.eqb_spec p (K + i)); [lia | reflexivity].
      * intros j Hj. destruct (Z.eq_dec j i) as [->|Hne].
        -- exists (row_num c'), (start c').
           destruct (Hbelow (K + i) ltac:(lia)) as [-> ->].
           rewrite !at_index_insert by lia. rewrite Z.eqb_refl. auto.
        -- apply Hfrom. lia.
Qed.

Lemma resize_Ok (v : list Z) (n : Z) :
  0 <= n -> exists v', resize v n = Ok v' /\ Z.of_nat (length v') = n.
Proof.
  intros Hn. unfold resize. destruct (Z.ltb_spec n 0); [lia|].
  eexists. split; [reflexivity|].
  rewrite length_app, length_take, length_replicate. lia.
Qed.

Lemma at_index_fill {A : Type} (v : list A) (x : A) (p : Z) :
  0 <= p < Z.of_nat (length v) -> at_index (fill v x) p = Ok x.
Proof.
  intros Hp. apply at_index_Ok. split; [lia|].
  unfold fill. apply lookup_replicate_2. lia.
Qed.

Lemma Int_half_product (K d : Z) :
  1 <= K <= max_dimension -> 0 <= d <= 3 ->
  Int.div (Int.mul K (Int.add K d)) 2 = K * (K + d) / 2.
Proof.
  intros HK Hd. unfold Int.div, Int.mul, Int.add.
  rewrite (wrap_in_range (K + d)) by int_range.
  rewrite (wrap_in_range (K * (K + d)))
    by (unfold Int.in_range, Int.min_signed, Int.max_signed, max_dimension in *; nia).
  rewrite Z.quot_div_nonneg by (unfold max_dimension in *; nia).
  apply wrap_in_range.
  assert (0 <= K * (K + d) / 2 <= K * (K + d)).
  { split; [apply Z.div_pos; unfold max_dimension in *; nia|].
    apply Z.div_le_upper_bound; unfold max_dimension in *; nia. }
  unfold Int.in_range, Int.min_signed, Int.max_signed, max_dimension in *; nia.
Qed.

Lemma Init_spec (K : Z) (v : list Z) (pd0 : PrivateData) :
  1 <= K <= max_dimension -> at_index v 0 = Ok K ->
  exists pd,
    Init v pd0 = Ok (num_parameters K, pd) /\ layout K pd /\
    cached_solution_ pd = cached_solution_ pd0 /\
    cholesky_factor_ pd = cholesky_factor_ pd0.
Proof.
  intros HK Hv.
  pose proof (num_parameters_bound K HK) as Hnp.
  pose proof (num_parameters_split K ltac:(lia)) as Hsplit.
  unfold Init. rewrite Hv. simpl.
  rewrite (Int_half_product K 3 HK) by lia.
  rewrite (Int_half_product K 1 HK) by lia.
  fold (num_parameters K). fold (num_cholesky_entries K).
  destruct (resize_Ok (nonzero_column_indices_ pd0) (num_parameters K))
    as (nz0 & -> & Hl1); [lia|].
  destruct (resize_Ok (start_indices_ pd0) (num_parameters K))
    as (st0 & -> & Hl2); [lia|].
  simpl.
  destruct (Init_loop_spec K HK (Z.to_nat (num_cholesky_entries K)) 0
              (cursor_init K) (fill nz0 0) (fill st0 0))
    as (nz & st & Hrun & Hn1 & Hn2 & Hbelow & Hfrom).
  - apply cursor_init_pre, HK.
  - lia.
  - lia.
  - unfold fill. rewrite length_replicate. exact Hl1.
  - unfold fill. rewrite length_replicate. exact Hl2.
  - rewrite Hrun. simpl. eexists. split; [reflexivity|].
    unfold fill in Hn1, Hn2. rewrite length_replicate in Hn1, Hn2.
    split; [|split; reflexivity].
    constructor; simpl; try reflexivity; try lia.
    + intros row Hrow. destruct (Hbelow row ltac:(lia)) as [-> ->].
      rewrite !at_index_fill by lia. auto.
    + intros row Hrow. destruct (Hfrom (row - K) ltac:(lia)) as (r & s0 & H1 & H2 & H3).
      replace (K + (row - K)) with row in * by lia. eauto.
Qed.

(** When the number of factor entries that [Init] computes is not
    positive, its loop is not entered and the tables stay zero. *)
Lemma Init_without_entries (K : Z) (v : list Z) (pd0 : PrivateData) (np entries : Z) :
  at_index v 0 = Ok K ->
  Int.div (Int.mul K (Int.add K 3)) 2 = np ->
  Int.div (Int.mul K (Int.add K 1)) 2 = entries ->
  0 <= np -> entries <= 0 ->
  Init v pd0
  = Ok (np, mkPrivateData K entries
              (replicate (Z.to_nat np) 0) (replicate (Z.to_nat np) 0)
              (cached_solution_ pd0) (cholesky_factor_ pd0)).
Proof.
  intros Hv Hnp Hentries Hnp0 Hentries0. unfold Init. rewrite Hv. simpl.
  rewrite Hnp, Hentries. unfold resize.
  destruct (Z.ltb_spec np 0); [lia|]. simpl. unfold fill.
  rewrite !length_app, !length_take, !length_replicate.
  replace (Z.to_nat entries) with 0%nat by lia. simpl.
  do 3 f_equal; f_equal; lia.
Qed.

(** ** What the two updates leave alone *)

Lemma bind_Ok {A B : Type} (m : outcome A) (f : A -> outcome B) (b : B) :
  m ≫= f = Ok b -> exists a, m = Ok a /\ f a = Ok b.
Proof. destruct m as [a|e]; [eauto | discriminate]. Qed.

Lemma SetupDistribution_frame (parameters : list float) (pd pd' : PrivateData) :
  SetupDistribution parameters pd = Ok pd' ->
  exists m, pd' = with_cholesky_factor pd m.
Proof.
  unfold SetupDistribution, SetupCholeskyFactor_. intros H.
  apply bind_Ok in H as (m0 & _ & H). apply bind_Ok in H as (m & _ & H).
  injection H as <-. eauto.
Qed.

Lemma back_subst_length (m : arma.mat) (b : list float) :
  forall r, length (arma.back_subst m r b) = length b.
Proof.
  induction b as [|b_r b IH]; intros r; simpl; [reflexivity|].
  f_equal. apply IH.
Qed.

Lemma SamplingAccumulatePrecompute_frame
    (parameters beta_vector : list float) (pd pd' : PrivateData) :
  SamplingAccumulatePrecompute parameters beta_vector pd = Ok pd' ->
  exists x, pd' = with_cached_solution pd x /\ length x = length beta_vector.
Proof.
  unfold SamplingAccumulatePrecompute. intros H.
  apply bind_Ok in H as (mean & Hmean & H).
  apply bind_Ok in H as (rhs & Hrhs & H).
  apply bind_Ok in H as (x & Hx & H). injection H as <-.
  exists x. split; [reflexivity|].
  unfold view in Hmean. destruct (Nat.leb_spec (length beta_vector) (length parameters));
    [|discriminate]. injection Hmean as <-.
  unfold arma.vec_sub in Hrhs. destruct (Nat.eqb_spec (length beta_vector)
    (length (take (length beta_vector) parameters))) as [Hl|]; [|discriminate].
  injection Hrhs as <-.
  unfold arma.solve in Hx. destruct (_ && _); [|discriminate].
  injection Hx as <-. rewrite back_subst_length, length_zip_with. lia.
Qed.

Lemma SamplingAccumulatePrecompute_cached_length
    (parameters beta_vector : list float) (pd pd' : PrivateData) :
  SamplingAccumulatePrecompute parameters beta_vector pd = Ok pd' ->
  length (cached_solution_ pd') = length beta_vector.
Proof.
  intros H. apply SamplingAccumulatePrecompute_frame in H as (x & -> & Hx).
  exact Hx.
Qed.

Lemma update_frame (pd pd' : PrivateData) :
  update pd pd' ->
  cholesky_factor_dimension_ pd' = cholesky_factor_dimension_ pd /\
  num_cholesky_factor_entries_ pd' = num_cholesky_factor_entries_ pd /\
  nonzero_column_indices_ pd' = nonzero_column_indices_ pd /\
  start_indices_ pd' = start_indices_ pd.
Proof.
  intros [parameters pd0 pd1 H|parameters beta_vector pd0 pd1 H].
  - apply SetupDistribution_frame in H as (m & ->). simpl. auto.
  - apply SamplingAccumulatePrecompute_frame in H as (x & -> & _). simpl. auto.
Qed.

(** ** The life of a context *)

Lemma layout_with_cholesky_factor (K : Z) (pd : PrivateData) (m : arma.mat) :
  layout K pd -> layout K (with_cholesky_factor pd m).
Proof. intros []. constructor; assumption. Qed.

Lemma layout_with_cached_solution (K : Z) (pd : PrivateData) (x : list float) :
  layout K pd -> layout K (with_cached_solution pd x).
Proof. intros []. constructor; assumption. Qed.

Lemma context_for_layout (K : Z) (pd : PrivateData) :
  1 <= K <= max_dimension -> context_for K pd -> layout K pd.
Proof.
  intros HK Hctx. induction Hctx as [v pd0 pd np Hv HInit|params pd pd' _ IH H|params beta pd pd' _ IH H].
  - destruct (Init_spec K v pd0 HK Hv) as (pd1 & HInit' & Hlay & _).
    rewrite HInit in HInit'. injection HInit' as _ ->. exact Hlay.
  - apply SetupDistribution_frame in H as (m & ->).
    apply layout_with_cholesky_factor, IH.
  - apply SamplingAccumulatePrecompute_frame in H as (x & -> & _).
    apply layout_with_cached_solution, IH.
Qed.

(** ** The gradient *)

Lemma gradient_mean_block (pd : PrivateData) (parameters beta_vector : list float)
    (row_index col_index : Z) :
  Z.of_nat (length beta_vector) <= Int.max_signed ->
  row_index < Z.of_nat (length beta_vector) ->
  AttributeGradientWithRespectToParameter pd parameters beta_vector
    row_index col_index
  = Ok (if row_index =? col_index then 1%float else 0%float).
Proof.
  intros HK Hrow. unfold AttributeGradientWithRespectToParameter.
  rewrite wrap_in_range by int_range.
  destruct (Z.ltb_spec row_index (Z.of_nat (length beta_vector))); [|lia].
  destruct (row_index =? col_index); reflexivity.
Qed.

Lemma gradient_factor_block (K : Z) (pd : PrivateData)
    (parameters beta_vector : list float) (row_index : Z) :
  1 <= K <= max_dimension -> layout K pd ->
  Z.of_nat (length (cached_solution_ pd)) = K ->
  Z.of_nat (length beta_vector) = K ->
  K <= row_index < num_parameters K ->
  exists target start_index x,
    at_index (nonzero_column_indices_ pd) row_index = Ok target /\
    at_index (start_indices_ pd) row_index = Ok start_index /\
    at_index (cached_solution_ pd) (row_index - start_index + target) = Ok x /\
    0 <= target < K /\
    forall col_index,
      AttributeGradientWithRespectToParameter pd parameters beta_vector
        row_index col_index
      = Ok (if col_index =? target then x else 0%float).
Proof.
  intros HK Hlay Hcached Hbeta Hrow.
  pose proof (num_parameters_bound K HK) as Hnp.
  destruct (layout_factor K pd Hlay row_index Hrow) as (r & s0 & Hnz & Hst & Hin).
  pose proof (in_row_bounds _ _ _ _ HK Hin) as [Hs0 HjE].
  destruct Hin as (Hr & Hs & Hj).
  destruct (at_index_defined (cached_solution_ pd) (row_index - (K + s0) + r))
    as [x Hx]; [lia|].
  exists r, (K + s0), x. repeat split; try assumption; try lia.
  intros col_index. unfold AttributeGradientWithRespectToParameter.
  rewrite Hbeta, wrap_in_range by int_range.
  destruct (Z.ltb_spec row_index K); [lia|].
  rewrite Hnz. simpl. rewrite (Z.eqb_sym col_index r).
  destruct (r =? col_index); [|reflexivity].
  rewrite Hst. simpl. unfold Int.add, Int.sub.
  rewrite (wrap_in_range (row_index - (K + s0))) by int_range.
  rewrite wrap_in_range by int_range. exact Hx.
Qed.

(** ** Packing a mean and a factor into a parameter vector *)

Lemma length_upper_row (F : arma.mat) (K r : Z) :
  r <= K -> Z.of_nat (length (upper_row F K r)) = K - r.
Proof.
  intros Hr. unfold upper_row. rewrite length_fmap, length_seqZ. lia.
Qed.

Lemma length_rows_before (F : arma.mat) (K : Z) (r : nat) :
  Z.of_nat r <= K ->
  2 * Z.of_nat (length (concat (upper_row F K <$> seqZ 0 (Z.of_nat r))))
  = Z.of_nat r * (2 * K - Z.of_nat r + 1).
Proof.
  induction r as [|r IH]; intros Hr.
  - reflexivity.
  - replace (Z.of_nat (S r)) with (Z.of_nat r + 1) by lia.
    rewrite seqZ_app by lia. rewrite fmap_app, concat_app, length_app.
    simpl. rewrite length_app. simpl. rewrite Nat.add_0_r.
    specialize (IH ltac:(lia)).
    rewrite Nat2Z.inj_add, length_upper_row by lia. lia.
Qed.

Lemma pack_at_index (K : Z) (mean : list float) (F : arma.mat) (r s j : Z) :
  Z.of_nat (length mean) = K -> in_row K r s j ->
  at_index (pack K mean F) (K + j) = Ok (arma.cells F r (r + j - s)).
Proof.
  intros Hmean (Hr & Hs & Hj).
  pose proof (length_rows_before F K (Z.to_nat r) ltac:(lia)) as Hlen.
  rewrite Z2Nat.id in Hlen by lia.
  assert (Hs0 : 0 <= s) by nia.
  apply at_index_Ok. split; [lia|]. unfold pack.
  rewrite lookup_app_r by lia.
  replace (seqZ 0 K) with (seqZ 0 r ++ seqZ (0 + r) (1 + (K - r - 1)))
    by (rewrite <- seqZ_app by lia; f_equal; lia).
  rewrite (seqZ_cons (0 + r)) by lia.
  rewrite fmap_app, concat_app. simpl.
  rewrite lookup_app_r by lia. rewrite lookup_app_l.
  - unfold upper_row. rewrite list_lookup_fmap.
    rewrite Z.add_0_l.
    replace (Z.to_nat (K + j) - length mean - length (concat (upper_row F K <$> seqZ 0 r)))%nat
      with (Z.to_nat (j - s)) by lia.
    rewrite lookup_seqZ_lt by lia. simpl. do 2 f_equal. lia.
  - pose proof (length_upper_row F K (0 + r) ltac:(lia)). lia.
Qed.

(** ** The factor that [SetupDistribution] builds *)

Lemma in_row_unique (K r1 s1 r2 s2 j : Z) :
  in_row K r1 s1 j -> in_row K r2 s2 j -> r1 = r2 /\ s1 = s2.
Proof.
  intros (Hr1 & Hs1 & Hj1) (Hr2 & Hs2 & Hj2).
  assert (r1 = r2) as ->.
  { destruct (Z.lt_trichotomy r1 r2) as [Hlt|[Heq|Hgt]]; [|exact Heq|]; nia. }
  split; [reflexivity | lia].
Qed.

Lemma row_start_exists (K r : Z) : exists s, 2 * s = r * (2 * K - r + 1).
Proof.
  destruct (Z.Even_or_Odd r) as [[k ->]|[k ->]].
  - exists (k * (2 * K - 2 * k + 1)). ring.
  - exists ((2 * k + 1) * (K - k)). ring.
Qed.

Lemma store_at_Ok (m : arma.mat) (r c : Z) (x : float) :
  0 <= r < arma.n_rows m -> 0 <= c < arma.n_cols m ->
  arma.store_at m r c x
  = Ok (arma.Mat (arma.n_rows m) (arma.n_cols m)
          (fun r' c' => if (r' =? r) && (c' =? c) then x else arma.cells m r' c')).
Proof.
  intros Hr Hc. unfold arma.store_at, arma.in_bounds.
  destruct (Z.leb_spec 0 r); [|lia]. destruct (Z.ltb_spec r (arma.n_rows m)); [|lia].
  destruct (Z.leb_spec 0 c); [|lia]. destruct (Z.ltb_spec c (arma.n_cols m)); [|lia].
  reflexivity.
Qed.

Lemma SetupCholeskyFactor_loop_spec (K : Z) (mean : list float) (F : arma.mat)
    (HK : 1 <= K <= max_dimension) (Hmean : Z.of_nat (length mean) = K) :
  forall (n : nat) (i : Z) (c : cursor) (m : arma.mat),
    cursor_pre K i c -> 0 <= i ->
    i + Z.of_nat n = num_cholesky_entries K ->
    arma.n_rows m = K -> arma.n_cols m = K ->
    exists m',
      SetupCholeskyFactor_loop n K i c (pack K mean F) m = Ok m' /\
      arma.n_rows m' = K /\ arma.n_cols m' = K /\
      (forall r s j, in_row K r s j -> i <= j ->
         arma.cells m' r (r + j - s) = arma.cells F r (r + j - s)) /\
      (forall r c0, (forall s j, in_row K r s j -> i <= j -> c0 <> r + j - s) ->
         arma.cells m' r c0 = arma.cells m r c0).
Proof.
  pose proof (num_parameters_bound K HK) as Hnp.
  pose proof (num_parameters_split K ltac:(lia)) as Hsplit.
  induction n as [|n IH]; intros i c m Hpre Hi Hn Hrows Hcols.
  - exists m. simpl. repeat split; auto.
    intros r s j Hin Hj. pose proof (in_row_bounds _ _ _ _ HK Hin). lia.
  - assert (HiE : i < num_cholesky_entries K) by lia.
    pose proof (advance_ok K i c HK Hpre HiE) as Hok.
    pose proof (cursor_ok_in_row _ _ _ Hok) as Hrow.
    pose proof (in_row_bounds _ _ _ _ HK Hrow) as [Hs0 _].
    set (c' := advance i c) in *.
    simpl. fold c'. unfold Int.add, Int.sub.
    rewrite (wrap_in_range (K + i)) by int_range.
    rewrite (pack_at_index K mean F _ _ _ Hmean Hrow). simpl.
    destruct Hrow as (Hr & Hs & Hj).
    rewrite (wrap_in_range (row_num c' + i)) by int_range.
    rewrite (wrap_in_range (row_num c' + i - start c')) by int_range.
    rewrite (wrap_in_range (i + 1)) by int_range.
    rewrite store_at_Ok by lia. simpl.
    match goal with
    | |- context [SetupCholeskyFactor_loop n K (i + 1) c' _ ?m1] =>
        destruct (IH (i + 1) c' m1) as (m' & Hrun & Hr' & Hc' & Hplaced & Hkept)
    end.
    + apply cursor_ok_pre, Hok.
    + lia.
    + lia.
    + exact Hrows.
    + exact Hcols.
    + exists m'. rewrite Hrun. repeat split; auto.
      * intros r s j Hin Hij. destruct (Z.eq_dec j i) as [->|Hne].
        -- destruct (in_row_unique _ _ _ _ _ _ Hin (conj Hr (conj Hs Hj))) as [-> ->].
           rewrite Hkept.
           ++ simpl. rewrite !Z.eqb_refl. reflexivity.
           ++ intros s' j' Hin' Hj' Heq.
              destruct Hin' as (_ & Hs' & _). lia.
        -- apply Hplaced; [exact Hin | lia].
      * intros r c0 Hfree. rewrite Hkept.
        -- simpl. destruct (Z.eqb_spec r (row_num c')) as [->|]; [|reflexivity].
           destruct (Z.eqb_spec c0 (row_num c' + i - start c')) as [->|]; [|reflexivity].
           exfalso. apply (Hfree (start c') i); [repeat split; lia | lia | reflexivity].
        -- intros s j Hin Hj'. apply Hfree; [exact Hin | lia].
Qed.

Lemma SetupDistribution_spec (K : Z) (mean : list float) (F : arma.mat)
    (pd : PrivateData) :
  1 <= K <= max_dimension -> layout K pd -> Z.of_nat (length mean) = K ->
  exists m,
    SetupDistribution (pack K mean F) pd = Ok (with_cholesky_factor pd m) /\
    arma.n_rows m = K /\ arma.n_cols m = K /\
    (forall r c, 0 <= c < r -> arma.cells m r c = 0%float) /\
    (forall r c, 0 <= r <= c -> c < K -> arma.cells m r c = arma.cells F r c).
Proof.
  intros HK Hlay Hmean.
  unfold SetupDistribution, SetupCholeskyFactor_.
  rewrite (layout_dimension K pd Hlay), (layout_entries K pd Hlay).
  unfold arma.zeros. destruct (Z.ltb_spec K 0); [lia|]. simpl.
  destruct (SetupCholeskyFactor_loop_spec K mean F HK Hmean
              (Z.to_nat (num_cholesky_entries K)) 0 (cursor_init K)
              (arma.Mat K K (fun _ _ => 0%float)))
    as (m & Hrun & Hr & Hc & Hplaced & Hkept).
  - apply cursor_init_pre, HK.
  - lia.
  - pose proof (num_cholesky_entries_double K). lia.
  - reflexivity.
  - reflexivity.
  - exists m. rewrite Hrun. simpl. repeat split; auto.
    + intros r c Hrc. rewrite Hkept; [reflexivity|].
      intros s j (Hr0 & Hs & Hj) _. lia.
    + intros r c Hrc HcK. destruct (row_start_exists K r) as [s Hs].
      replace c with (r + (s + (c - r)) - s) by lia.
      apply Hplaced; [repeat split; lia | nia].
Qed.

Lemma rows_ext (m m' : arma.mat) :
  arma.n_rows m = arma.n_rows m' -> arma.n_cols m = arma.n_cols m' ->
  (forall r c, 0 <= r < arma.n_rows m -> 0 <= c < arma.n_cols m ->
     arma.cells m r c = arma.cells m' r c) ->
  arma.rows m = arma.rows m'.
Proof.
  intros Hr Hc Hcells. unfold arma.rows. rewrite <- Hr, <- Hc.
  apply list_fmap_ext. intros i r Hi. apply lookup_seqZ in Hi as [-> Hi].
  apply list_fmap_ext. intros j c Hj. apply lookup_seqZ in Hj as [-> Hj].
  apply Hcells; lia.
Qed.

(** ** The gradient off its column *)

Lemma gradient_off_target (K : Z) (pd : PrivateData)
    (parameters beta_vector : list float) (row_index : Z) :
  1 <= K <= max_dimension -> layout K pd ->
  Z.of_nat (length beta_vector) = K ->
  K <= row_index < num_parameters K ->
  exists target,
    at_index (nonzero_column_indices_ pd) row_index = Ok target /\
    0 <= target < K /\
    forall col_index, col_index <> target ->
      AttributeGradientWithRespectToParameter pd parameters beta_vector
        row_index col_index = Ok 0%float.
Proof.
  intros HK Hlay Hbeta Hrow.
  destruct (layout_factor K pd Hlay row_index Hrow) as (r & s0 & Hnz & _ & Hr & _).
  exists r. repeat split; try assumption; try lia.
  intros col_index Hcol. unfold AttributeGradientWithRespectToParameter.
  rewrite Hbeta, wrap_in_range by int_range.
  destruct (Z.ltb_spec row_index K); [lia|].
  rewrite Hnz. simpl. destruct (Z.eqb_spec r col_index); [congruence | reflexivity].
Qed.

(** ** The solve returns *)

Lemma SamplingAccumulatePrecompute_returns
    (parameters beta_vector : list float) (pd : PrivateData) :
  (length beta_vector <= length parameters)%nat ->
  arma.n_rows (cholesky_factor_ pd) = Z.of_nat (length beta_vector) ->
  arma.n_cols (cholesky_factor_ pd) = Z.of_nat (length beta_vector) ->
  SamplingAccumulatePrecompute parameters beta_vector pd
  = Ok (with_cached_solution pd
          (arma.back_subst (cholesky_factor_ pd) 0
             (zip_with PrimFloat.sub beta_vector
                (take (length beta_vector) parameters)))).
Proof.
  intros Hparams Hrows Hcols. unfold SamplingAccumulatePrecompute, view.
  destruct (Nat.leb_spec (length beta_vector) (length parameters)); [|lia]. simpl.
  unfold arma.vec_sub. rewrite length_take.
  destruct (Nat.eqb_spec (length beta_vector)
              (length beta_vector `min` length parameters)); [|lia].
  simpl. unfold arma.solve. rewrite Hrows, Hcols, length_zip_with, length_take.
  rewrite Z.eqb_refl. simpl.
  destruct (Z.eqb_spec (Z.of_nat (length beta_vector))
              (Z.of_nat (length beta_vector `min`
                 (length beta_vector `min` length parameters)))); [|lia].
  reflexivity.
Qed.

(** ** The worked contexts are contexts *)

Lemma context_K1_Init_for : context_for 1 context_K1_Init.
Proof. apply (context_Init 1 [1] PrivateData_new _ 2); reflexivity. Qed.

Lemma context_K1_Setup_for : context_for 1 context_K1_Setup.
Proof.
  apply (context_SetupDistribution 1 [0; 2]%float context_K1_Init);
    [exact context_K1_Init_for | reflexivity].
Qed.

Lemma context_K1_for : context_for 1 context_K1.
Proof.
  apply (context_SamplingAccumulatePrecompute 1 [0; 2]%float [2%float]
           context_K1_Setup); [exact context_K1_Setup_for | reflexivity].
Qed.

Lemma context_K1_at_mean_for : context_for 1 context_K1_at_mean.
Proof.
  apply (context_SamplingAccumulatePrecompute 1 [0; 2]%float [0%float]
           context_K1_Setup); [exact context_K1_Setup_for | reflexivity].
Qed.

Lemma context_K2_Init_for : context_for 2 context_K2_Init.
Proof. apply (context_Init 2 [2] PrivateData_new _ 5); reflexivity. Qed.

(** * The claims *)

(** C1. In a context for dimension [K] whose cached solution has been
    computed, the gradient entry of a factor parameter [row_index] in
    [[K, num_parameters K)] and an output coordinate [col_index] in [[0, K)]
    is [0.0] when [col_index] differs from
    [nonzero_column_indices_[row_index]], and is the cached solution at
    [row_index - start_indices_[row_index] + nonzero_column_indices_[row_index]]
    when it equals it; all three reads are within their containers. *)
Theorem AttributeGradient_factor_entry (K : Z) (pd : PrivateData)
    (parameters beta_vector : list float) (row_index col_index : Z) :
  1 <= K <= max_dimension -> context_for K pd ->
  Z.of_nat (length (cached_solution_ pd)) = K ->
  Z.of_nat (length beta_vector) = K ->
  K <= row_index < num_parameters K -> 0 <= col_index < K ->
  exists target start_index x,
    at_index (nonzero_column_indices_ pd) row_index = Ok target /\
    at_index (start_indices_ pd) row_index = Ok start_index /\
    at_index (cached_solution_ pd) (row_index - start_index + target) = Ok x /\
    AttributeGradientWithRespectToParameter pd parameters beta_vector
      row_index col_index
    = Ok (if col_index =? target then x else 0%float).
Proof.
  intros HK Hctx Hcached Hbeta Hrow Hcol.
  destruct (gradient_factor_block K pd parameters beta_vector row_index HK
              (context_for_layout K pd HK Hctx) Hcached Hbeta Hrow)
    as (target & start_index & x & Hnz & Hst & Hx & _ & Hgrad).
  exists target, start_index, x. auto.
Qed.

Lemma AttributeGradient_factor_entry_witness :
  context_for 1 context_K1 /\
  exists target start_index x,
    at_index (nonzero_column_indices_ context_K1) 1 = Ok target /\
    at_index (start_indices_ context_K1) 1 = Ok start_index /\
    at_index (cached_solution_ context_K1) (1 - start_index + target) = Ok x /\
    AttributeGradientWithRespectToParameter context_K1 [0; 2]%float [2%float] 1 0
    = Ok (if 0 =? target then x else 0%float).
Proof.
  split; [exact context_K1_for|].
  apply (AttributeGradient_factor_entry 1 context_K1 [0; 2]%float [2%float] 1 0);
    [unfold max_dimension; lia | exact context_K1_for | reflexivity | reflexivity
    | vm_compute; intuition discriminate | lia].
Defined.

(** C2, as the code has it. For a dimension [K] that [Init] supports, from
    1 to [max_dimension], a mean of length [K] and
    an upper-triangular [K] by [K] factor, [SetupDistribution] on the packed
    parameter vector builds exactly that factor: [K] by [K], zero below the
    diagonal, the packed value on and above it. For [K = 2] and the
    parameters [1; 2; 3; 4; 5] the factor is [[3; 4]; [0; 5]]. *)
Theorem SetupDistribution_round_trip :
  (forall (K : Z) (mean : list float) (F : arma.mat) (pd : PrivateData),
     1 <= K <= max_dimension -> context_for K pd ->
     Z.of_nat (length mean) = K ->
     arma.n_rows F = K -> arma.n_cols F = K -> upper_triangular F ->
     exists pd',
       SetupDistribution (pack K mean F) pd = Ok pd' /\
       arma.n_rows (cholesky_factor_ pd') = K /\
       arma.n_cols (cholesky_factor_ pd') = K /\
       (forall r c, 0 <= c < r -> r < K ->
          arma.cells (cholesky_factor_ pd') r c = 0%float) /\
       (forall r c, 0 <= r <= c -> c < K ->
          arma.cells (cholesky_factor_ pd') r c = arma.cells F r c) /\
       arma.rows (cholesky_factor_ pd') = arma.rows F) /\
  (exists pd pd',
     Init [2] PrivateData_new = Ok (5, pd) /\
     SetupDistribution [1; 2; 3; 4; 5]%float pd = Ok pd' /\
     arma.rows (cholesky_factor_ pd') = [[3; 4]; [0; 5]]%float).
Proof.
  split.
  - intros K mean F pd HK Hctx Hmean HFr HFc Hupper.
    destruct (SetupDistribution_spec K mean F pd HK
                (context_for_layout K pd HK Hctx) Hmean)
      as (m & Hrun & Hr & Hc & Hlow & Hup).
    eexists. split; [exact Hrun|]. simpl. repeat split; auto.
    apply rows_ext; [lia | lia |]. intros r c Hr' Hc'.
    destruct (Z.lt_ge_cases c r).
    + rewrite Hlow by lia. symmetry. apply Hupper; lia.
    + apply Hup; lia.
  - exists context_K2_Init. eexists. repeat split; reflexivity.
Qed.

Lemma upper_triangular_factor_K2 : upper_triangular factor_K2.
Proof.
  intros r c Hc Hr. simpl in Hr.
  assert (r = 1) as -> by lia. assert (c = 0) as -> by lia. reflexivity.
Qed.

Lemma SetupDistribution_round_trip_witness :
  pack 2 [1; 2]%float factor_K2 = [1; 2; 3; 4; 5]%float /\
  exists pd',
    SetupDistribution (pack 2 [1; 2]%float factor_K2) context_K2_Init = Ok pd' /\
    arma.n_rows (cholesky_factor_ pd') = 2 /\
    arma.n_cols (cholesky_factor_ pd') = 2 /\
    (forall r c, 0 <= c < r -> r < 2 ->
       arma.cells (cholesky_factor_ pd') r c = 0%float) /\
    (forall r c, 0 <= r <= c -> c < 2 ->
       arma.cells (cholesky_factor_ pd') r c = arma.cells factor_K2 r c) /\
    arma.rows (cholesky_factor_ pd') = arma.rows factor_K2.
Proof.
  split; [reflexivity|].
  apply (proj1 SetupDistribution_round_trip 2 [1; 2]%float factor_K2 context_K2_Init);
    [unfold max_dimension; lia | exact context_K2_Init_for | reflexivity
    | reflexivity | reflexivity | exact upper_triangular_factor_K2].
Defined.

(** C2 as stated fails beyond [max_dimension]: for [K = 65535] the products
    [K * (K + 3)] and [K * (K + 1)] wrap around, [Init] returns a context
    with room for 32767 parameters and the number of factor entries -32768,
    and in this context the loop of [SetupDistribution] is not entered: the
    factor it builds is zero everywhere, for every parameter vector, and so
    is not the factor with ones on the diagonal whose packing it was
    given. *)
Lemma SetupDistribution_overflow_dimension :
  1 <= 65535 /\
  Init [65535] PrivateData_new = Ok (32767, context_K65535) /\
  context_for 65535 context_K65535 /\
  upper_triangular (identity_factor 65535) /\
  forall mean : list float,
    exists pd',
      SetupDistribution (pack 65535 mean (identity_factor 65535)) context_K65535
      = Ok pd' /\
      (forall r c, arma.cells (cholesky_factor_ pd') r c = 0%float) /\
      arma.cells (identity_factor 65535) 0 0 = 1%float /\
      arma.cells (cholesky_factor_ pd') 0 0
      <> arma.cells (identity_factor 65535) 0 0.
Proof.
  assert (HInit : Init [65535] PrivateData_new = Ok (32767, context_K65535)).
  { apply (Init_without_entries 65535 [65535] PrivateData_new 32767 (-32768));
      [reflexivity | reflexivity | reflexivity | lia | lia]. }
  split; [lia|]. split; [exact HInit|]. split.
  { apply (context_Init 65535 [65535] PrivateData_new _ 32767);
      [reflexivity | exact HInit]. }
  split.
  { intros r c Hc Hr. simpl. destruct (Z.eqb_spec r c); [lia | reflexivity]. }
  intros mean. generalize (pack 65535 mean (identity_factor 65535)).
  intros parameters.
  exists (with_cholesky_factor context_K65535
            (arma.Mat 65535 65535 (fun _ _ => 0%float))).
  split; [reflexivity|]. split; [reflexivity|]. split; [reflexivity|].
  simpl. intros H.
  pose proof (f_equal (fun x => PrimFloat.eqb x 0%float) H) as Heq.
  discriminate Heq.
Qed.

(** C3. For a dimension [K >= 1] (the length of the draw) and [row_index],
    [col_index] in [[0, K)], the gradient entry is [1.0] if the two indices
    are equal and [0.0] otherwise, whatever the context, the parameters and
    the values of the draw. *)
Theorem AttributeGradient_identity_block (K : Z) (pd : PrivateData)
    (parameters beta_vector : list float) (row_index col_index : Z) :
  1 <= K <= Int.max_signed -> Z.of_nat (length beta_vector) = K ->
  0 <= row_index < K -> 0 <= col_index < K ->
  AttributeGradientWithRespectToParameter pd parameters beta_vector
    row_index col_index
  = Ok (if row_index =? col_index then 1%float else 0%float).
Proof.
  intros HK Hbeta Hrow _. apply gradient_mean_block; lia.
Qed.

Lemma AttributeGradient_identity_block_witness :
  AttributeGradientWithRespectToParameter PrivateData_new [] [7; 8]%float 1 0
  = Ok 0%float /\
  AttributeGradientWithRespectToParameter PrivateData_new [] [7; 8]%float 1 1
  = Ok 1%float.
Proof.
  split.
  - apply (AttributeGradient_identity_block 2 PrivateData_new [] [7; 8]%float 1 0);
      [unfold Int.max_signed; lia | reflexivity | lia | lia].
  - apply (AttributeGradient_identity_block 2 PrivateData_new [] [7; 8]%float 1 1);
      [unfold Int.max_signed; lia | reflexivity | lia | lia].
Defined.

(** C4, as the code has it. In a context for dimension [K] whose cached
    solution has been computed, every factor parameter [row_index] in
    [[K, num_parameters K)] has one column [target] in [[0, K)], its entry of
    [nonzero_column_indices_], at which the gradient is the corresponding
    entry of the cached solution; at every other column the gradient is
    [0.0]. So at most one column has a nonzero gradient, and one has exactly
    when that cached entry is nonzero. *)
Theorem AttributeGradient_single_column (K : Z) (pd : PrivateData)
    (parameters beta_vector : list float) (row_index : Z) :
  1 <= K <= max_dimension -> context_for K pd ->
  Z.of_nat (length (cached_solution_ pd)) = K ->
  Z.of_nat (length beta_vector) = K ->
  K <= row_index < num_parameters K ->
  exists target start_index x,
    0 <= target < K /\
    at_index (nonzero_column_indices_ pd) row_index = Ok target /\
    at_index (start_indices_ pd) row_index = Ok start_index /\
    at_index (cached_solution_ pd) (row_index - start_index + target) = Ok x /\
    AttributeGradientWithRespectToParameter pd parameters beta_vector
      row_index target = Ok x /\
    (forall col_index, col_index <> target ->
       AttributeGradientWithRespectToParameter pd parameters beta_vector
         row_index col_index = Ok 0%float) /\
    (forall col_index v,
       AttributeGradientWithRespectToParameter pd parameters beta_vector
         row_index col_index = Ok v ->
       nonzero v -> col_index = target /\ v = x).
Proof.
  intros HK Hctx Hcached Hbeta Hrow.
  destruct (gradient_factor_block K pd parameters beta_vector row_index HK
              (context_for_layout K pd HK Hctx) Hcached Hbeta Hrow)
    as (target & start_index & x & Hnz & Hst & Hx & Htarget & Hgrad).
  exists target, start_index, x.
  split; [lia|]. do 3 (split; [assumption|]). split; [|split].
  - rewrite Hgrad, Z.eqb_refl. reflexivity.
  - intros col_index Hcol. rewrite Hgrad.
    destruct (Z.eqb_spec col_index target); [contradiction | reflexivity].
  - intros col_index v Hv Hnonzero. rewrite Hgrad in Hv.
    destruct (Z.eqb_spec col_index target) as [Heq|Hne].
    + injection Hv as ->. auto.
    + injection Hv as <-. discriminate Hnonzero.
Qed.

Lemma AttributeGradient_single_column_witness :
  context_for 1 context_K1 /\
  exists target start_index x,
    0 <= target < 1 /\
    at_index (nonzero_column_indices_ context_K1) 1 = Ok target /\
    at_index (start_indices_ context_K1) 1 = Ok start_index /\
    at_index (cached_solution_ context_K1) (1 - start_index + target) = Ok x /\
    AttributeGradientWithRespectToParameter context_K1 [0; 2]%float [2%float]
      1 target = Ok x /\
    (forall col_index, col_index <> target ->
       AttributeGradientWithRespectToParameter context_K1 [0; 2]%float [2%float]
         1 col_index = Ok 0%float) /\
    (forall col_index v,
       AttributeGradientWithRespectToParameter context_K1 [0; 2]%float [2%float]
         1 col_index = Ok v ->
       nonzero v -> col_index = target /\ v = x).
Proof.
  split; [exact context_K1_for|].
  apply (AttributeGradient_single_column 1 context_K1 [0; 2]%float [2%float] 1);
    [unfold max_dimension; lia | exact context_K1_for | reflexivity | reflexivity
    | vm_compute; intuition discriminate].
Defined.

(** C4 as stated fails when the draw is the mean: for [K = 1], parameters
    [0; 2] and the draw [0] the cached solution is [0], and the parameter
    row 1 has no column in [[0, 1)] with a nonzero gradient. *)
Lemma AttributeGradient_no_nonzero_column :
  run_K1 0 2 0 = Ok context_K1_at_mean /\
  ~ exists col_index v,
      0 <= col_index < 1 /\
      AttributeGradientWithRespectToParameter context_K1_at_mean
        [0; 2]%float [0%float] 1 col_index = Ok v /\
      nonzero v.
Proof.
  split; [reflexivity|].
  intros (col_index & v & Hcol & Hgrad & Hv).
  assert (col_index = 0) as -> by lia.
  vm_compute in Hgrad. injection Hgrad as <-. discriminate Hv.
Qed.

(** C5, as the code has it. The gradient query checks no range. In a
    context for dimension [K], for a [row_index] below [num_parameters K]
    and a [col_index] of which one is out of range ([row_index] negative, or
    [col_index] outside [[0, K)]), it returns a value: [1.0] when
    [row_index] is below [K] and equal to [col_index] (both are negative
    then), and [0.0] otherwise. *)
Theorem AttributeGradient_out_of_range (K : Z) (pd : PrivateData)
    (parameters beta_vector : list float) (row_index col_index : Z) :
  1 <= K <= max_dimension -> context_for K pd ->
  Z.of_nat (length beta_vector) = K ->
  row_index < num_parameters K ->
  row_index < 0 \/ col_index < 0 \/ K <= col_index ->
  AttributeGradientWithRespectToParameter pd parameters beta_vector
    row_index col_index
  = Ok (if (row_index <? K) && (row_index =? col_index)
        then 1%float else 0%float).
Proof.
  intros HK Hctx Hbeta Hrow Hout.
  destruct (Z.ltb_spec row_index K) as [Hlt|Hge]; simpl.
  - apply gradient_mean_block; int_range.
  - destruct (gradient_off_target K pd parameters beta_vector row_index HK
                (context_for_layout K pd HK Hctx) Hbeta ltac:(lia))
      as (target & _ & Htarget & Hgrad).
    apply Hgrad. lia.
Qed.

Lemma AttributeGradient_out_of_range_witness :
  context_for 1 context_K1 /\
  AttributeGradientWithRespectToParameter context_K1 [0; 2]%float [2%float] 1 1
  = Ok 0%float.
Proof.
  split; [exact context_K1_for|].
  apply (AttributeGradient_out_of_range 1 context_K1 [0; 2]%float [2%float] 1 1);
    [unfold max_dimension; lia | exact context_K1_for | reflexivity
    | vm_compute; reflexivity | lia].
Defined.

(** C5 as stated fails: for [K = 1], after setup and precompute, the query
    at row 1 and column 1 returns [0.0] and raises nothing. *)
Lemma AttributeGradient_no_contract_violation :
  run_K1 0 2 2 = Ok context_K1 /\
  AttributeGradientWithRespectToParameter context_K1 [0; 2]%float [2%float] 1 1
  = Ok 0%float /\
  forall e,
    AttributeGradientWithRespectToParameter context_K1 [0; 2]%float [2%float] 1 1
    <> Fail e.
Proof. repeat split; try reflexivity. intros e. discriminate. Qed.




(** C7, as the code has it. For every [K] from 1 to [max_dimension], the
    dimensions whose products [K * (K + 3)] fit an [int], [Init] returns
    [K * (K + 3) / 2] as the number of parameters, sets the dimension to [K]
    and the number of factor entries to [K * (K + 1) / 2], and both layout
    tables have as many elements as there are parameters. *)
Theorem Init_sizes (K : Z) (attribute_dimensions_in : list Z) (pd0 : PrivateData) :
  1 <= K <= max_dimension ->
  at_index attribute_dimensions_in 0 = Ok K ->
  exists pd,
    Init attribute_dimensions_in pd0 = Ok (K * (K + 3) / 2, pd) /\
    cholesky_factor_dimension_ pd = K /\
    num_cholesky_factor_entries_ pd = K * (K + 1) / 2 /\
    Z.of_nat (length (nonzero_column_indices_ pd)) = K * (K + 3) / 2 /\
    Z.of_nat (length (start_indices_ pd)) = K * (K + 3) / 2.
Proof.
  intros HK Hv.
  destruct (Init_spec K attribute_dimensions_in pd0 HK Hv) as (pd & HInit & [] & _).
  exists pd. auto.
Qed.

Lemma Init_sizes_witness :
  exists pd,
    Init [3; 9] PrivateData_new = Ok (3 * (3 + 3) / 2, pd) /\
    cholesky_factor_dimension_ pd = 3 /\
    num_cholesky_factor_entries_ pd = 3 * (3 + 1) / 2 /\
    Z.of_nat (length (nonzero_column_indices_ pd)) = 3 * (3 + 3) / 2 /\
    Z.of_nat (length (start_indices_ pd)) = 3 * (3 + 3) / 2.
Proof.
  apply (Init_sizes 3 [3; 9] PrivateData_new);
    [unfold max_dimension; lia | reflexivity].
Defined.

(** C7 as stated fails beyond [max_dimension]: for [K = 46340] the product
    [K * (K + 3)] is 2147534620, above the largest [int]; the number of
    parameters that [Init] computes is negative, and [Init] returns no
    context. *)
Lemma Init_overflow :
  1 <= 46340 /\
  Int.div (Int.mul 46340 (Int.add 46340 3)) 2 = -1073716338 /\
  Init [46340] PrivateData_new = Fail LengthError /\
  forall pd, Init [46340] PrivateData_new <> Ok (46340 * (46340 + 3) / 2, pd).
Proof.
  split; [lia|]. split; [reflexivity|]. split; [reflexivity|].
  intros pd. discriminate.
Qed.

(** C8. End to end for [K = 1] and the parameters [0.0; 2.0]: with a
    generator that returns 1.0, [DrawBeta] yields the draw [2.0];
    [SamplingAccumulatePrecompute] for the draw [2.0] caches the solution
    [1.0]; the gradient is then 1.0 at row 0, column 0 and 1.0 at row 1,
    column 0. *)
Theorem end_to_end_K1 (rng : Type) (RandGaussian : float -> rng -> float * rng)
    (g : rng) :
  (forall g, fst (RandGaussian 1%float g) = 1%float) ->
  exists np pd0 pd1 pd2,
    Init [1] PrivateData_new = Ok (np, pd0) /\
    SetupDistribution [0; 2]%float pd0 = Ok pd1 /\
    arma.rows (cholesky_factor_ pd1) = [[2%float]] /\
    fst (DrawBeta RandGaussian pd1 [0; 2]%float g) = Ok [2%float] /\
    SamplingAccumulatePrecompute [0; 2]%float [2%float] pd1 = Ok pd2 /\
    cached_solution_ pd2 = [1%float] /\
    AttributeGradientWithRespectToParameter pd2 [0; 2]%float [2%float] 0 0
    = Ok 1%float /\
    AttributeGradientWithRespectToParameter pd2 [0; 2]%float [2%float] 1 0
    = Ok 1%float.
Proof.
  intros Hone.
  exists 2, context_K1_Init, context_K1_Setup, context_K1.
  repeat split; try reflexivity.
  unfold DrawBeta. simpl. specialize (Hone g).
  destruct (RandGaussian 1%float g) as [x g']. simpl in Hone. subst x.
  reflexivity.
Qed.

Lemma end_to_end_K1_witness :
  (forall g, fst (constant_one 1%float g) = 1%float) /\
  exists np pd0 pd1 pd2,
    Init [1] PrivateData_new = Ok (np, pd0) /\
    SetupDistribution [0; 2]%float pd0 = Ok pd1 /\
    arma.rows (cholesky_factor_ pd1) = [[2%float]] /\
    fst (DrawBeta constant_one pd1 [0; 2]%float tt) = Ok [2%float] /\
    SamplingAccumulatePrecompute [0; 2]%float [2%float] pd1 = Ok pd2 /\
    cached_solution_ pd2 = [1%float] /\
    AttributeGradientWithRespectToParameter pd2 [0; 2]%float [2%float] 0 0
    = Ok 1%float /\
    AttributeGradientWithRespectToParameter pd2 [0; 2]%float [2%float] 1 0
    = Ok 1%float.
Proof.
  split; [reflexivity|].
  apply (end_to_end_K1 unit constant_one tt). reflexivity.
Defined.

(** C9. [SetupDistribution] changes the factor only and
    [SamplingAccumulatePrecompute] the cached solution only: whenever one of
    them returns, the dimension, the number of factor entries and both
    layout tables are those of the context it was given, and so is the
    field that the other one writes. Hence after any sequence of parameter
    changes and draws the dimension, the number of factor entries and the
    layout tables are still the ones the sequence started with. *)
Theorem updates_frame :
  (forall (parameters : list float) (pd pd' : PrivateData),
     SetupDistribution parameters pd = Ok pd' ->
     cholesky_factor_dimension_ pd' = cholesky_factor_dimension_ pd /\
     num_cholesky_factor_entries_ pd' = num_cholesky_factor_entries_ pd /\
     nonzero_column_indices_ pd' = nonzero_column_indices_ pd /\
     start_indices_ pd' = start_indices_ pd /\
     cached_solution_ pd' = cached_solution_ pd) /\
  (forall (parameters beta_vector : list float) (pd pd' : PrivateData),
     SamplingAccumulatePrecompute parameters beta_vector pd = Ok pd' ->
     cholesky_factor_dimension_ pd' = cholesky_factor_dimension_ pd /\
     num_cholesky_factor_entries_ pd' = num_cholesky_factor_entries_ pd /\
     nonzero_column_indices_ pd' = nonzero_column_indices_ pd /\
     start_indices_ pd' = start_indices_ pd /\
     cholesky_factor_ pd' = cholesky_factor_ pd) /\
  (forall pd pd' : PrivateData,
     rtc update pd pd' ->
     cholesky_factor_dimension_ pd' = cholesky_factor_dimension_ pd /\
     num_cholesky_factor_entries_ pd' = num_cholesky_factor_entries_ pd /\
     nonzero_column_indices_ pd' = nonzero_column_indices_ pd /\
     start_indices_ pd' = start_indices_ pd).
Proof.
  split; [|split].
  - intros parameters pd pd' H.
    apply SetupDistribution_frame in H as (m & ->). simpl. auto.
  - intros parameters beta_vector pd pd' H.
    apply SamplingAccumulatePrecompute_frame in H as (x & -> & _). simpl. auto.
  - intros pd pd' Hsteps. induction Hsteps as [pd|pd pd1 pd' Hstep _ IH].
    + auto.
    + apply update_frame in Hstep as (H1 & H2 & H3 & H4).
      destruct IH as (IH1 & IH2 & IH3 & IH4).
      rewrite IH1, IH2, IH3, IH4. auto.
Qed.

Lemma updates_frame_witness :
  (SetupDistribution [0; 2]%float context_K1_Init = Ok context_K1_Setup /\
   SamplingAccumulatePrecompute [0; 2]%float [2%float] context_K1_Setup
   = Ok context_K1) /\
  (cholesky_factor_dimension_ context_K1_Setup
   = cholesky_factor_dimension_ context_K1_Init /\
   num_cholesky_factor_entries_ context_K1_Setup
   = num_cholesky_factor_entries_ context_K1_Init /\
   nonzero_column_indices_ context_K1_Setup
   = nonzero_column_indices_ context_K1_Init /\
   start_indices_ context_K1_Setup = start_indices_ context_K1_Init /\
   cached_solution_ context_K1_Setup = cached_solution_ context_K1_Init) /\
  (cholesky_factor_dimension_ context_K1
   = cholesky_factor_dimension_ context_K1_Setup /\
   num_cholesky_factor_entries_ context_K1
   = num_cholesky_factor_entries_ context_K1_Setup /\
   nonzero_column_indices_ context_K1 = nonzero_column_indices_ context_K1_Setup /\
   start_indices_ context_K1 = start_indices_ context_K1_Setup /\
   cholesky_factor_ context_K1 = cholesky_factor_ context_K1_Setup) /\
  (cholesky_factor_dimension_ context_K1
   = cholesky_factor_dimension_ context_K1_Init /\
   num_cholesky_factor_entries_ context_K1
   = num_cholesky_factor_entries_ context_K1_Init /\
   nonzero_column_indices_ context_K1 = nonzero_column_indices_ context_K1_Init /\
   start_indices_ context_K1 = start_indices_ context_K1_Init).
Proof.
  split; [split; reflexivity|]. split; [|split].
  - apply (proj1 updates_frame [0; 2]%float context_K1_Init context_K1_Setup).
    reflexivity.
  - apply (proj1 (proj2 updates_frame)
             [0; 2]%float [2%float] context_K1_Setup context_K1).
    reflexivity.
  - apply (proj2 (proj2 updates_frame) context_K1_Init context_K1).
    apply (rtc_l update _ context_K1_Setup).
    + apply (update_SetupDistribution [0; 2]%float). reflexivity.
    + apply rtc_once.
      apply (update_SamplingAccumulatePrecompute [0; 2]%float [2%float]).
      reflexivity.
Defined.

(** C10. [Init] reads element 0 of its input vector and nothing else of
    it: two input vectors with the same first element give the same outcome,
    the number of parameters and the whole context, on the same context; and
    on any two contexts they give the same number of parameters, dimension,
    number of factor entries and layout tables. *)
Theorem Init_reads_first_element (d : Z) (rest1 rest2 : list Z) :
  (forall pd, Init (d :: rest1) pd = Init (d :: rest2) pd) /\
  (forall pd1 pd2,
     Init_layout (d :: rest1) pd1 = Init_layout (d :: rest2) pd2).
Proof.
  split; [reflexivity|].
  intros pd1 pd2. unfold Init_layout, Init. simpl.
  set (n := Int.div (Int.mul d (Int.add d 3)) 2).
  unfold resize. destruct (Z.ltb_spec n 0) as [Hn|Hn]; [reflexivity|].
  simpl. unfold fill.
  rewrite !length_app, !length_take, !length_replicate.
  replace (Z.to_nat n `min` length (nonzero_column_indices_ pd1) +
           (Z.to_nat n - length (nonzero_column_indices_ pd1)))%nat
    with (Z.to_nat n) by lia.
  replace (Z.to_nat n `min` length (start_indices_ pd1) +
           (Z.to_nat n - length (start_indices_ pd1)))%nat
    with (Z.to_nat n) by lia.
  replace (Z.to_nat n `min` length (nonzero_column_indices_ pd2) +
           (Z.to_nat n - length (nonzero_column_indices_ pd2)))%nat
    with (Z.to_nat n) by lia.
  replace (Z.to_nat n `min` length (start_indices_ pd2) +
           (Z.to_nat n - length (start_indices_ pd2)))%nat
    with (Z.to_nat n) by lia.
  destruct (Init_loop _ _ _ _ _ _) as [[nz st]|e]; reflexivity.
Qed.

(** * Further properties of the code *)

(** ** Positions and parameter indices *)

Lemma row_start_double (K r : Z) : 2 * row_start K r = r * (2 * K - r + 1).
Proof.
  unfold row_start. destruct (row_start_exists K r) as [s Hs].
  rewrite <- Hs, (Z.mul_comm 2 s), Z.div_mul by lia. lia.
Qed.

Lemma in_row_param_index (K r c : Z) :
  0 <= r <= c -> c < K ->
  in_row K r (row_start K r) (param_index K r c - K).
Proof.
  intros Hr Hc. pose proof (row_start_double K r) as Hs.
  unfold in_row, param_index. repeat split; lia.
Qed.

Lemma in_row_row_start (K r s j : Z) : in_row K r s j -> s = row_start K r.
Proof.
  intros (_ & Hs & _). pose proof (row_start_double K r). lia.
Qed.

Lemma param_index_bounds (K r c : Z) :
  1 <= K <= max_dimension -> 0 <= r <= c -> c < K ->
  K <= param_index K r c < num_parameters K.
Proof.
  intros HK Hr Hc.
  pose proof (in_row_bounds _ _ _ _ HK (in_row_param_index K r c Hr Hc)) as [H1 H2].
  rewrite num_parameters_split by lia. lia.
Qed.

Lemma layout_at_param_index (K : Z) (pd : PrivateData) (r c : Z) :
  1 <= K <= max_dimension -> layout K pd -> 0 <= r <= c -> c < K ->
  at_index (nonzero_column_indices_ pd) (param_index K r c) = Ok r /\
  at_index (start_indices_ pd) (param_index K r c) = Ok (K + row_start K r).
Proof.
  intros HK Hlay Hr Hc.
  destruct (layout_factor K pd Hlay (param_index K r c)
              (param_index_bounds K r c HK Hr Hc)) as (r' & s' & Hnz & Hst & Hin).
  destruct (in_row_unique _ _ _ _ _ _ Hin (in_row_param_index K r c Hr Hc))
    as [-> ->].
  auto.
Qed.

Lemma layout_decode (K : Z) (pd : PrivateData) (p : Z) :
  1 <= K <= max_dimension -> layout K pd -> K <= p < num_parameters K ->
  exists r c,
    at_index (nonzero_column_indices_ pd) p = Ok r /\
    at_index (start_indices_ pd) p = Ok (p - (c - r)) /\
    0 <= r <= c /\ c < K /\ param_index K r c = p.
Proof.
  intros HK Hlay Hp.
  destruct (layout_factor K pd Hlay p Hp) as (r & s0 & Hnz & Hst & Hin).
  pose proof (in_row_row_start _ _ _ _ Hin) as Hs. destruct Hin as (Hr & _ & Hj).
  exists r, (r + (p - K) - s0). unfold param_index. rewrite <- Hs.
  replace (p - (r + (p - K) - s0 - r)) with (K + s0) by lia.
  repeat split; try assumption; lia.
Qed.

(** X1. For a dimension [K] that [Init] supports, the tables that [Init]
    builds hold zero at the [K] mean parameters and, at the parameter of the
    factor entry in row [r] and column [c], the row [r] and the index of the
    first parameter of that row. *)
Theorem Init_tables (K : Z) (attribute_dimensions_in : list Z) (pd0 : PrivateData) :
  1 <= K <= max_dimension ->
  at_index attribute_dimensions_in 0 = Ok K ->
  exists pd,
    Init attribute_dimensions_in pd0 = Ok (num_parameters K, pd) /\
    (forall row, 0 <= row < K ->
       at_index (nonzero_column_indices_ pd) row = Ok 0 /\
       at_index (start_indices_ pd) row = Ok 0) /\
    (forall r c, 0 <= r <= c -> c < K ->
       K <= param_index K r c < num_parameters K /\
       at_index (nonzero_column_indices_ pd) (param_index K r c) = Ok r /\
       at_index (start_indices_ pd) (param_index K r c) = Ok (param_index K r r)).
Proof.
  intros HK Hv.
  destruct (Init_spec K attribute_dimensions_in pd0 HK Hv) as (pd & HInit & Hlay & _).
  exists pd. split; [exact HInit|]. split.
  - apply (layout_mean K pd Hlay).
  - intros r c Hr Hc. split; [apply param_index_bounds; assumption|].
    replace (param_index K r r) with (K + row_start K r)
      by (unfold param_index; lia).
    apply layout_at_param_index; assumption.
Qed.

Lemma Init_tables_witness :
  exists pd,
    Init [3] PrivateData_new = Ok (num_parameters 3, pd) /\
    (forall row, 0 <= row < 3 ->
       at_index (nonzero_column_indices_ pd) row = Ok 0 /\
       at_index (start_indices_ pd) row = Ok 0) /\
    (forall r c, 0 <= r <= c -> c < 3 ->
       3 <= param_index 3 r c < num_parameters 3 /\
       at_index (nonzero_column_indices_ pd) (param_index 3 r c) = Ok r /\
       at_index (start_indices_ pd) (param_index 3 r c) = Ok (param_index 3 r r)).
Proof.
  apply (Init_tables 3 [3] PrivateData_new);
    [unfold max_dimension; lia | reflexivity].
Defined.

(** X2. In a context for dimension [K], the two tables decode every
    parameter index [p] in [[K, num_parameters K)] to a position on or above
    the diagonal: the row is [nonzero_column_indices_[p]], the column is
    [p - start_indices_[p] + nonzero_column_indices_[p]], and [p] is the
    parameter index of that position; two parameters with the same decoded
    position are the same parameter. *)
Theorem layout_tables_decode (K : Z) (pd : PrivateData) :
  1 <= K <= max_dimension -> context_for K pd ->
  (forall p, K <= p < num_parameters K ->
     exists r s c,
       at_index (nonzero_column_indices_ pd) p = Ok r /\
       at_index (start_indices_ pd) p = Ok s /\
       c = p - s + r /\ 0 <= r <= c /\ c < K /\ param_index K r c = p) /\
  (forall p q r s t,
     K <= p < num_parameters K -> K <= q < num_parameters K ->
     at_index (nonzero_column_indices_ pd) p = Ok r ->
     at_index (nonzero_column_indices_ pd) q = Ok r ->
     at_index (start_indices_ pd) p = Ok s ->
     at_index (start_indices_ pd) q = Ok t ->
     p - s = q - t -> p = q).
Proof.
  intros HK Hctx. pose proof (context_for_layout K pd HK Hctx) as Hlay. split.
  - intros p Hp. destruct (layout_decode K pd p HK Hlay Hp)
      as (r & c & Hnz & Hst & Hr & Hc & Hidx).
    exists r, (p - (c - r)), c. repeat split; try assumption; lia.
  - intros p q r s t Hp Hq Hnp Hnq Hsp Hsq Heq.
    destruct (layout_decode K pd p HK Hlay Hp)
      as (r1 & c1 & Hnz1 & Hst1 & _ & _ & Hidx1).
    destruct (layout_decode K pd q HK Hlay Hq)
      as (r2 & c2 & Hnz2 & Hst2 & _ & _ & Hidx2).
    rewrite Hnp in Hnz1. rewrite Hnq in Hnz2. rewrite Hsp in Hst1.
    rewrite Hsq in Hst2.
    injection Hnz1 as <-. injection Hnz2 as <-.
    injection Hst1 as Hs1. injection Hst2 as Hs2.
    rewrite <- Hidx1, <- Hidx2. unfold param_index. lia.
Qed.

Lemma context_K2_Setup_for : context_for 2 context_K2_Setup.
Proof.
  apply (context_SetupDistribution 2 [1; 2; 3; 4; 5]%float context_K2_Init);
    [exact context_K2_Init_for | reflexivity].
Qed.

Lemma context_K2_for : context_for 2 context_K2.
Proof.
  apply (context_SamplingAccumulatePrecompute 2 [1; 2; 3; 4; 5]%float
           [2; 3]%float context_K2_Setup);
    [exact context_K2_Setup_for | reflexivity].
Qed.

Lemma layout_tables_decode_witness :
  context_for 2 context_K2 /\
  (forall p, 2 <= p < num_parameters 2 ->
     exists r s c,
       at_index (nonzero_column_indices_ context_K2) p = Ok r /\
       at_index (start_indices_ context_K2) p = Ok s /\
       c = p - s + r /\ 0 <= r <= c /\ c < 2 /\ param_index 2 r c = p).
Proof.
  split; [exact context_K2_for|].
  apply (proj1 (layout_tables_decode 2 context_K2
                  ltac:(unfold max_dimension; lia) context_K2_for)).
Defined.

(** ** [SetupDistribution] on any parameter vector *)

Lemma at_index_beyond {A : Type} (v : list A) (i : Z) :
  Z.of_nat (length v) <= i -> at_index v i = Fail OutOfRange.
Proof.
  intros Hi. unfold at_index. destruct (Z.leb_spec 0 i); [|reflexivity].
  rewrite lookup_ge_None_2 by lia. reflexivity.
Qed.

Section SetupAnyParameters.

Variable K : Z.
Hypothesis HK : 1 <= K <= max_dimension.
Variable parameters : list float.

(** With enough parameters every iteration reads one and stores it. *)
Lemma SetupCholeskyFactor_loop_reads :
  num_parameters K <= Z.of_nat (length parameters) ->
  forall (n : nat) (i : Z) (c : cursor) (m : arma.mat),
    cursor_pre K i c -> 0 <= i ->
    i + Z.of_nat n = num_cholesky_entries K ->
    arma.n_rows m = K -> arma.n_cols m = K ->
    exists m',
      SetupCholeskyFactor_loop n K i c parameters m = Ok m' /\
      arma.n_rows m' = K /\ arma.n_cols m' = K /\
      (forall r s j, in_row K r s j -> i <= j ->
         at_index parameters (K + j) = Ok (arma.cells m' r (r + j - s))) /\
      (forall r c0, (forall s j, in_row K r s j -> i <= j -> c0 <> r + j - s) ->
         arma.cells m' r c0 = arma.cells m r c0).
Proof.
  intros Hlen.
  pose proof (num_parameters_bound K HK) as Hnp.
  pose proof (num_parameters_split K ltac:(lia)) as Hsplit.
  induction n as [|n IH]; intros i c m Hpre Hi Hn Hrows Hcols.
  - exists m. simpl. repeat split; auto.
    intros r s j Hin Hj. pose proof (in_row_bounds _ _ _ _ HK Hin). lia.
  - assert (HiE : i < num_cholesky_entries K) by lia.
    pose proof (advance_ok K i c HK Hpre HiE) as Hok.
    pose proof (cursor_ok_in_row _ _ _ Hok) as Hrow.
    pose proof (in_row_bounds _ _ _ _ HK Hrow) as [Hs0 _].
    set (c' := advance i c) in *.
    destruct (at_index_defined parameters (K + i)) as [x Hx]; [lia|].
    simpl. fold c'. unfold Int.add, Int.sub.
    rewrite (wrap_in_range (K + i)) by int_range. rewrite Hx. simpl.
    destruct Hrow as (Hr & Hs & Hj).
    rewrite (wrap_in_range (row_num c' + i)) by int_range.
    rewrite (wrap_in_range (row_num c' + i - start c')) by int_range.
    rewrite (wrap_in_range (i + 1)) by int_range.
    rewrite store_at_Ok by lia. simpl.
    match goal with
    | |- context [SetupCholeskyFactor_loop n K (i + 1) c' _ ?m1] =>
        destruct (IH (i + 1) c' m1) as (m' & Hrun & Hr' & Hc' & Hplaced & Hkept)
    end; [apply cursor_ok_pre, Hok | lia | lia | exact Hrows | exact Hcols |].
    exists m'. rewrite Hrun. split; [reflexivity|].
    split; [exact Hr'|]. split; [exact Hc'|]. split.
    + intros r s j Hin Hij. destruct (Z.eq_dec j i) as [->|Hne].
      * destruct (in_row_unique _ _ _ _ _ _ Hin (conj Hr (conj Hs Hj))) as [-> ->].
        rewrite Hkept.
        -- simpl. rewrite !Z.eqb_refl. exact Hx.
        -- intros s' j' Hin' Hj' Heq. destruct Hin' as (_ & Hs' & _). lia.
      * apply Hplaced; [exact Hin | lia].
    + intros r c0 Hfree. rewrite Hkept.
      * simpl. destruct (Z.eqb_spec r (row_num c')) as [->|]; [|reflexivity].
        destruct (Z.eqb_spec c0 (row_num c' + i - start c')) as [->|]; [|reflexivity].
        exfalso. apply (Hfree (start c') i); [repeat split; lia | lia | reflexivity].
      * intros s j Hin Hj'. apply Hfree; [exact Hin | lia].
Qed.

(** With too few parameters an iteration reads past the end of the vector. *)
Lemma SetupCholeskyFactor_loop_short :
  forall (n : nat) (i : Z) (c : cursor) (m : arma.mat),
    cursor_pre K i c -> 0 <= i ->
    i + Z.of_nat n = num_cholesky_entries K ->
    arma.n_rows m = K -> arma.n_cols m = K ->
    (1 <= n)%nat ->
    Z.of_nat (length parameters) < K + i + Z.of_nat n ->
    SetupCholeskyFactor_loop n K i c parameters m = Fail OutOfRange.
Proof.
  pose proof (num_parameters_bound K HK) as Hnp.
  pose proof (num_parameters_split K ltac:(lia)) as Hsplit.
  induction n as [|n IH]; intros i c m Hpre Hi Hn Hrows Hcols Hn1 Hlen; [lia|].
  assert (HiE : i < num_cholesky_entries K) by lia.
  pose proof (advance_ok K i c HK Hpre HiE) as Hok.
  pose proof (cursor_ok_in_row _ _ _ Hok) as Hrow.
  pose proof (in_row_bounds _ _ _ _ HK Hrow) as [Hs0 _].
  set (c' := advance i c) in *.
  simpl. fold c'. unfold Int.add, Int.sub.
  rewrite (wrap_in_range (K + i)) by int_range.
  destruct (Z.le_gt_cases (Z.of_nat (length parameters)) (K + i)) as [Hshort|Hlong].
  - rewrite at_index_beyond by exact Hshort. reflexivity.
  - destruct (at_index_defined parameters (K + i)) as [x Hx]; [lia|].
    rewrite Hx. simpl. destruct Hrow as (Hr & Hs & Hj).
    rewrite (wrap_in_range (row_num c' + i)) by int_range.
    rewrite (wrap_in_range (row_num c' + i - start c')) by int_range.
    rewrite (wrap_in_range (i + 1)) by int_range.
    rewrite store_at_Ok by lia. simpl.
    apply IH; try assumption; try lia. apply cursor_ok_pre, Hok.
Qed.

Lemma SetupDistribution_reads (pd : PrivateData) :
  layout K pd -> num_parameters K <= Z.of_nat (length parameters) ->
  exists m,
    SetupDistribution parameters pd = Ok (with_cholesky_factor pd m) /\
    arma.n_rows m = K /\ arma.n_cols m = K /\
    (forall r c, 0 <= c < r -> arma.cells m r c = 0%float) /\
    (forall r c, 0 <= r <= c -> c < K ->
       at_index parameters (param_index K r c) = Ok (arma.cells m r c)).
Proof.
  intros Hlay Hlen.
  unfold SetupDistribution, SetupCholeskyFactor_.
  rewrite (layout_dimension K pd Hlay), (layout_entries K pd Hlay).
  unfold arma.zeros. destruct (Z.ltb_spec K 0); [lia|]. simpl.
  destruct (SetupCholeskyFactor_loop_reads Hlen
              (Z.to_nat (num_cholesky_entries K)) 0 (cursor_init K)
              (arma.Mat K K (fun _ _ => 0%float)))
    as (m & Hrun & Hr & Hc & Hplaced & Hkept).
  - apply cursor_init_pre, HK.
  - lia.
  - pose proof (num_cholesky_entries_double K). lia.
  - reflexivity.
  - reflexivity.
  - exists m. rewrite Hrun. simpl. repeat split; auto.
    + intros r c Hrc. rewrite Hkept; [reflexivity|].
      intros s j (Hr0 & Hs & Hj) _. lia.
    + intros r c Hrc HcK.
      pose proof (in_row_param_index K r c Hrc HcK) as Hin.
      pose proof (in_row_bounds _ _ _ _ HK Hin) as [Hs0 _].
      specialize (Hplaced r _ _ Hin ltac:(lia)).
      replace (K + (param_index K r c - K)) with (param_index K r c) in Hplaced by lia.
      replace (r + (param_index K r c - K) - row_start K r) with c in Hplaced
        by (unfold param_index; lia).
      exact Hplaced.
Qed.

Lemma SetupDistribution_short (pd : PrivateData) :
  layout K pd -> Z.of_nat (length parameters) < num_parameters K ->
  SetupDistribution parameters pd = Fail OutOfRange.
Proof.
  intros Hlay Hlen.
  pose proof (num_parameters_split K ltac:(lia)) as Hsplit.
  pose proof (num_cholesky_entries_double K ltac:(lia)) as H2.
  unfold SetupDistribution, SetupCholeskyFactor_.
  rewrite (layout_dimension K pd Hlay), (layout_entries K pd Hlay).
  unfold arma.zeros. destruct (Z.ltb_spec K 0); [lia|]. simpl.
  rewrite SetupCholeskyFactor_loop_short; try reflexivity; try lia.
  apply cursor_init_pre, HK.
Qed.

End SetupAnyParameters.

(** X3. In a context for dimension [K], [SetupDistribution] accepts every
    parameter vector with at least [num_parameters K] entries, longer ones
    included: the factor it builds is [K] by [K], zero below the diagonal,
    and its entry in row [r] and column [c >= r] is the parameter at
    [param_index K r c]. *)
Theorem SetupDistribution_unpacks (K : Z) (pd : PrivateData)
    (parameters : list float) :
  1 <= K <= max_dimension -> context_for K pd ->
  num_parameters K <= Z.of_nat (length parameters) ->
  exists pd',
    SetupDistribution parameters pd = Ok pd' /\
    arma.n_rows (cholesky_factor_ pd') = K /\
    arma.n_cols (cholesky_factor_ pd') = K /\
    (forall r c, 0 <= c < r ->
       arma.cells (cholesky_factor_ pd') r c = 0%float) /\
    (forall r c, 0 <= r <= c -> c < K ->
       at_index parameters (param_index K r c)
       = Ok (arma.cells (cholesky_factor_ pd') r c)).
Proof.
  intros HK Hctx Hlen.
  destruct (SetupDistribution_reads K HK parameters pd
              (context_for_layout K pd HK Hctx) Hlen)
    as (m & Hrun & Hr & Hc & Hlow & Hup).
  eexists. split; [exact Hrun|]. simpl. auto.
Qed.

Lemma SetupDistribution_unpacks_witness :
  context_for 2 context_K2_Init /\
  exists pd',
    SetupDistribution [1; 2; 3; 4; 5; 6; 7]%float context_K2_Init = Ok pd' /\
    arma.n_rows (cholesky_factor_ pd') = 2 /\
    arma.n_cols (cholesky_factor_ pd') = 2 /\
    (forall r c, 0 <= c < r ->
       arma.cells (cholesky_factor_ pd') r c = 0%float) /\
    (forall r c, 0 <= r <= c -> c < 2 ->
       at_index [1; 2; 3; 4; 5; 6; 7]%float (param_index 2 r c)
       = Ok (arma.cells (cholesky_factor_ pd') r c)).
Proof.
  split; [exact context_K2_Init_for|].
  apply (SetupDistribution_unpacks 2 context_K2_Init [1; 2; 3; 4; 5; 6; 7]%float);
    [unfold max_dimension; lia | exact context_K2_Init_for
    | vm_compute; discriminate].
Defined.

(** X4. The two walks agree: [SetupDistribution] stores the parameter [p],
    for every [p] in [[K, num_parameters K)], in the cell that the tables of
    [Init] give for [p], row [nonzero_column_indices_[p]] and column
    [p - start_indices_[p] + nonzero_column_indices_[p]]; this is the cell
    whose index into the cached solution the gradient uses for [p]. *)
Theorem SetupDistribution_follows_tables (K : Z) (pd pd' : PrivateData)
    (parameters : list float) (p : Z) :
  1 <= K <= max_dimension -> context_for K pd ->
  SetupDistribution parameters pd = Ok pd' ->
  K <= p < num_parameters K ->
  exists r s,
    at_index (nonzero_column_indices_ pd') p = Ok r /\
    at_index (start_indices_ pd') p = Ok s /\
    at_index parameters p = Ok (arma.cells (cholesky_factor_ pd') r (p - s + r)).
Proof.
  intros HK Hctx Hrun Hp.
  pose proof (context_for_layout K pd HK Hctx) as Hlay.
  destruct (Z.lt_ge_cases (Z.of_nat (length parameters)) (num_parameters K))
    as [Hshort|Hlen].
  { rewrite (SetupDistribution_short K HK parameters pd Hlay Hshort) in Hrun.
    discriminate Hrun. }
  destruct (SetupDistribution_reads K HK parameters pd Hlay Hlen)
    as (m & Hrun' & _ & _ & _ & Hup).
  rewrite Hrun in Hrun'. injection Hrun' as ->.
  destruct (layout_decode K pd p HK Hlay Hp) as (r & c & Hnz & Hst & Hr & Hc & Hidx).
  exists r, (p - (c - r)). simpl. split; [exact Hnz|]. split; [exact Hst|].
  replace (p - (p - (c - r)) + r) with c by lia.
  rewrite <- Hidx. apply Hup; assumption.
Qed.

Lemma SetupDistribution_follows_tables_witness :
  SetupDistribution [1; 2; 3; 4; 5]%float context_K2_Init = Ok context_K2_Setup /\
  exists r s,
    at_index (nonzero_column_indices_ context_K2_Setup) 3 = Ok r /\
    at_index (start_indices_ context_K2_Setup) 3 = Ok s /\
    at_index [1; 2; 3; 4; 5]%float 3
    = Ok (arma.cells (cholesky_factor_ context_K2_Setup) r (3 - s + r)).
Proof.
  split; [reflexivity|].
  apply (SetupDistribution_follows_tables 2 context_K2_Init context_K2_Setup
           [1; 2; 3; 4; 5]%float 3);
    [unfold max_dimension; lia | exact context_K2_Init_for | reflexivity
    | vm_compute; intuition discriminate].
Defined.

(** X5. In a context for dimension [K], a parameter vector with fewer than
    [num_parameters K] entries makes [SetupDistribution] read past the end
    of the vector: the call has no defined result and returns no context. *)
Theorem SetupDistribution_short_parameters (K : Z) (pd : PrivateData)
    (parameters : list float) :
  1 <= K <= max_dimension -> context_for K pd ->
  Z.of_nat (length parameters) < num_parameters K ->
  SetupDistribution parameters pd = Fail OutOfRange.
Proof.
  intros HK Hctx Hlen.
  apply (SetupDistribution_short K HK parameters pd
           (context_for_layout K pd HK Hctx) Hlen).
Qed.

Lemma SetupDistribution_short_parameters_witness :
  context_for 2 context_K2_Init /\
  SetupDistribution [1; 2; 3; 4]%float context_K2_Init = Fail OutOfRange.
Proof.
  split; [exact context_K2_Init_for|].
  apply (SetupDistribution_short_parameters 2 context_K2_Init [1; 2; 3; 4]%float);
    [unfold max_dimension; lia | exact context_K2_Init_for
    | vm_compute; reflexivity].
Defined.

(** X6. The factor depends on the parameters at the indices
    [[K, num_parameters K)] only: two parameter vectors that agree there,
    whatever their means and whatever follows, give factors with the same
    rows, and so do any two contexts for dimension [K]. *)
Theorem SetupDistribution_reads_factor_entries_only (K : Z)
    (pd1 pd2 : PrivateData) (parameters1 parameters2 : list float) :
  1 <= K <= max_dimension -> context_for K pd1 -> context_for K pd2 ->
  num_parameters K <= Z.of_nat (length parameters1) ->
  num_parameters K <= Z.of_nat (length parameters2) ->
  (forall p, K <= p < num_parameters K ->
     at_index parameters1 p = at_index parameters2 p) ->
  exists pd1' pd2',
    SetupDistribution parameters1 pd1 = Ok pd1' /\
    SetupDistribution parameters2 pd2 = Ok pd2' /\
    arma.rows (cholesky_factor_ pd1') = arma.rows (cholesky_factor_ pd2').
Proof.
  intros HK Hctx1 Hctx2 Hlen1 Hlen2 Hagree.
  destruct (SetupDistribution_reads K HK parameters1 pd1
              (context_for_layout K pd1 HK Hctx1) Hlen1)
    as (m1 & Hrun1 & Hr1 & Hc1 & Hlow1 & Hup1).
  destruct (SetupDistribution_reads K HK parameters2 pd2
              (context_for_layout K pd2 HK Hctx2) Hlen2)
    as (m2 & Hrun2 & Hr2 & Hc2 & Hlow2 & Hup2).
  eexists. eexists. split; [exact Hrun1|]. split; [exact Hrun2|]. simpl.
  apply rows_ext; [lia | lia |]. intros r c Hr Hc.
  destruct (Z.lt_ge_cases c r).
  - rewrite Hlow1, Hlow2 by lia. reflexivity.
  - specialize (Hup1 r c ltac:(lia) ltac:(lia)).
    specialize (Hup2 r c ltac:(lia) ltac:(lia)).
    rewrite Hagree in Hup1 by (apply param_index_bounds; lia).
    rewrite Hup1 in Hup2. injection Hup2 as ->. reflexivity.
Qed.

Lemma SetupDistribution_reads_factor_entries_only_witness :
  exists pd1' pd2',
    SetupDistribution [1; 2; 3; 4; 5]%float context_K2_Init = Ok pd1' /\
    SetupDistribution [8; 9; 3; 4; 5; 6]%float context_K2 = Ok pd2' /\
    arma.rows (cholesky_factor_ pd1') = arma.rows (cholesky_factor_ pd2').
Proof.
  apply (SetupDistribution_reads_factor_entries_only 2 context_K2_Init context_K2
           [1; 2; 3; 4; 5]%float [8; 9; 3; 4; 5; 6]%float);
    [unfold max_dimension; lia | exact context_K2_Init_for | exact context_K2_for
    | vm_compute; discriminate | vm_compute; discriminate |].
  intros p Hp. change (num_parameters 2) with 5 in Hp.
  assert (p = 2 \/ p = 3 \/ p = 4) as [->|[->| ->]] by lia; reflexivity.
Defined.



(** ** What [Init] keeps, and where it fails *)

Lemma Init_frame (v : list Z) (pd0 pd : PrivateData) (np : Z) :
  Init v pd0 = Ok (np, pd) ->
  at_index v 0 = Ok (cholesky_factor_dimension_ pd) /\
  cached_solution_ pd = cached_solution_ pd0 /\
  cholesky_factor_ pd = cholesky_factor_ pd0.
Proof.
  unfold Init. intros H.
  apply bind_Ok in H as (K & HK & H). apply bind_Ok in H as (nz0 & _ & H).
  apply bind_Ok in H as (st0 & _ & H). apply bind_Ok in H as ([nz st] & _ & H).
  injection H as _ <-. simpl. auto.
Qed.

(** X8. [Init] writes the layout only: the cached solution and the factor
    of the context it returns are those of the context it was given, so a
    context that is initialised again, for another dimension, still holds
    the factor and the cached solution of the old one. *)
Theorem Init_keeps_factor_and_cache (attribute_dimensions_in : list Z)
    (pd0 pd : PrivateData) (np : Z) :
  Init attribute_dimensions_in pd0 = Ok (np, pd) ->
  cached_solution_ pd = cached_solution_ pd0 /\
  cholesky_factor_ pd = cholesky_factor_ pd0.
Proof. intros H. apply Init_frame in H as (_ & H1 & H2). auto. Qed.

Lemma Init_keeps_factor_and_cache_witness :
  Init [1] context_K2 = Ok (2, context_of ('(_, pd) ← Init [1] context_K2; Ok pd)) /\
  cached_solution_ (context_of ('(_, pd) ← Init [1] context_K2; Ok pd))
  = cached_solution_ context_K2 /\
  cholesky_factor_ (context_of ('(_, pd) ← Init [1] context_K2; Ok pd))
  = cholesky_factor_ context_K2.
Proof.
  split; [reflexivity|].
  apply (Init_keeps_factor_and_cache [1] context_K2 _ 2). reflexivity.
Defined.

(** X9. [Init] returns no context for a negative dimension [K]: for [K] of
    -1 or -2 the number of parameters it computes is negative and the tables
    cannot take that size; for every other negative [K] (down to
    [- max_dimension]) the first iteration of the loop writes at the
    negative index [K], outside the tables. *)
Theorem Init_negative_dimension (K : Z) (attribute_dimensions_in : list Z)
    (pd0 : PrivateData) :
  - max_dimension <= K < 0 ->
  at_index attribute_dimensions_in 0 = Ok K ->
  Init attribute_dimensions_in pd0
  = Fail (if -2 <=? K then LengthError else OutOfRange).
Proof.
  unfold max_dimension. intros HK Hv. unfold Init. rewrite Hv. simpl.
  destruct (Z.leb_spec (-2) K) as [Hsmall|Hbig].
  - assert (K = -1 \/ K = -2) as [-> | ->] by lia; reflexivity.
  - assert (Hnp : Int.div (Int.mul K (Int.add K 3)) 2 = K * (K + 3) ÷ 2).
    { unfold Int.div, Int.mul, Int.add.
      rewrite (wrap_in_range (K + 3)) by int_range.
      rewrite (wrap_in_range (K * (K + 3)))
        by (unfold Int.in_range, Int.min_signed, Int.max_signed; nia).
      apply wrap_in_range.
      assert (0 <= K * (K + 3) ÷ 2 <= K * (K + 3)).
      { rewrite Z.quot_div_nonneg by nia. split; [apply Z.div_pos; nia|].
        apply Z.div_le_upper_bound; nia. }
      unfold Int.in_range, Int.min_signed, Int.max_signed; nia. }
    assert (Hen : exists n, Z.to_nat (Int.div (Int.mul K (Int.add K 1)) 2) = S n).
    { unfold Int.div, Int.mul, Int.add.
      rewrite (wrap_in_range (K + 1)) by int_range.
      rewrite (wrap_in_range (K * (K + 1)))
        by (unfold Int.in_range, Int.min_signed, Int.max_signed; nia).
      assert (3 <= K * (K + 1) ÷ 2 <= K * (K + 1)).
      { rewrite Z.quot_div_nonneg by nia. split.
        - apply Z.div_le_lower_bound; nia.
        - apply Z.div_le_upper_bound; nia. }
      rewrite wrap_in_range
        by (unfold Int.in_range, Int.min_signed, Int.max_signed; nia).
      exists (Z.to_nat (K * (K + 1) ÷ 2) - 1)%nat. lia. }
    destruct Hen as [n ->]. rewrite Hnp.
    assert (Hq : 0 <= K * (K + 3) ÷ 2).
    { rewrite Z.quot_div_nonneg by nia. apply Z.div_pos; nia. }
    destruct (resize_Ok (nonzero_column_indices_ pd0) (K * (K + 3) ÷ 2) Hq)
      as (nz0 & -> & _).
    destruct (resize_Ok (start_indices_ pd0) (K * (K + 3) ÷ 2) Hq)
      as (st0 & -> & _).
    cbv [mbind outcome_bind]. cbn [Init_loop]. cbv [mbind outcome_bind].
    unfold store. replace (Int.add K 0) with K
      by (unfold Int.add; rewrite wrap_in_range by int_range; lia).
    destruct (Z.leb_spec 0 K); [lia|]. reflexivity.
Qed.

Lemma Init_negative_dimension_witness :
  Init [-1] PrivateData_new = Fail LengthError /\
  Init [-5; 2] PrivateData_new = Fail OutOfRange.
Proof.
  split.
  - apply (Init_negative_dimension (-1) [-1] PrivateData_new);
      [unfold max_dimension; lia | reflexivity].
  - apply (Init_negative_dimension (-5) [-5; 2] PrivateData_new);
      [unfold max_dimension; lia | reflexivity].
Defined.

(** ** The gradient by position, and before a precompute *)

Lemma gradient_target_read (K : Z) (pd : PrivateData)
    (parameters beta_vector : list float) (r c : Z) :
  1 <= K <= max_dimension -> layout K pd ->
  Z.of_nat (length beta_vector) = K ->
  0 <= r <= c -> c < K ->
  forall col_index,
    AttributeGradientWithRespectToParameter pd parameters beta_vector
      (param_index K r c) col_index
    = if col_index =? r then at_index (cached_solution_ pd) c else Ok 0%float.
Proof.
  intros HK Hlay Hbeta Hr Hc col_index.
  pose proof (num_parameters_bound K HK) as Hnp.
  pose proof (param_index_bounds K r c HK Hr Hc) as Hp.
  destruct (layout_at_param_index K pd r c HK Hlay Hr Hc) as [Hnz Hst].
  pose proof (in_row_bounds _ _ _ _ HK (in_row_param_index K r c Hr Hc)) as [Hs0 _].
  unfold AttributeGradientWithRespectToParameter.
  rewrite Hbeta, wrap_in_range by int_range.
  destruct (Z.ltb_spec (param_index K r c) K); [lia|].
  rewrite Hnz. simpl. rewrite (Z.eqb_sym col_index r).
  destruct (r =? col_index); [|reflexivity].
  rewrite Hst. simpl. unfold Int.add, Int.sub.
  rewrite (wrap_in_range (param_index K r c - (K + row_start K r)))
    by (unfold param_index; int_range).
  rewrite wrap_in_range by (unfold param_index; int_range).
  f_equal. unfold param_index. lia.
Qed.

(** X10. In a context for dimension [K] with a cached solution [x] of [K]
    entries, the parameter that holds the factor entry in row [r] and column
    [c >= r] has the gradient [x[c]] at the output coordinate [r] and [0.0]
    at every other coordinate: the index arithmetic of the code,
    [row_index - start_indices_[row_index] + nonzero_column_indices_[row_index]],
    is the column of that factor entry. *)
Theorem AttributeGradient_at_position (K : Z) (pd : PrivateData)
    (parameters beta_vector : list float) (r c col_index : Z) :
  1 <= K <= max_dimension -> context_for K pd ->
  Z.of_nat (length (cached_solution_ pd)) = K ->
  Z.of_nat (length beta_vector) = K ->
  0 <= r <= c -> c < K ->
  exists x,
    at_index (cached_solution_ pd) c = Ok x /\
    AttributeGradientWithRespectToParameter pd parameters beta_vector
      (param_index K r c) col_index
    = Ok (if col_index =? r then x else 0%float).
Proof.
  intros HK Hctx Hcached Hbeta Hr Hc.
  destruct (at_index_defined (cached_solution_ pd) c) as [x Hx]; [lia|].
  exists x. split; [exact Hx|].
  rewrite (gradient_target_read K pd parameters beta_vector r c HK
             (context_for_layout K pd HK Hctx) Hbeta Hr Hc).
  destruct (col_index =? r); [exact Hx | reflexivity].
Qed.

Lemma AttributeGradient_at_position_witness :
  context_for 2 context_K2 /\
  exists x,
    at_index (cached_solution_ context_K2) 1 = Ok x /\
    AttributeGradientWithRespectToParameter context_K2 [1; 2; 3; 4; 5]%float
      [2; 3]%float (param_index 2 0 1) 0
    = Ok (if 0 =? 0 then x else 0%float).
Proof.
  split; [exact context_K2_for|].
  apply (AttributeGradient_at_position 2 context_K2 [1; 2; 3; 4; 5]%float
           [2; 3]%float 0 1 0);
    [unfold max_dimension; lia | exact context_K2_for | reflexivity
    | reflexivity | lia | lia].
Defined.

(** X11. Before any [SamplingAccumulatePrecompute], in a context that
    [Init] built from a new [PrivateData] and [SetupDistribution] set up,
    the cached solution is empty: a gradient query for a factor parameter
    returns [0.0] off its column, and on its column it reads outside the
    cached solution and has no defined result. *)
Theorem AttributeGradient_before_precompute (K : Z)
    (attribute_dimensions_in : list Z) (np : Z) (pd0 pd : PrivateData)
    (parameters0 parameters beta_vector : list float) (r c : Z) :
  1 <= K <= max_dimension ->
  at_index attribute_dimensions_in 0 = Ok K ->
  Init attribute_dimensions_in PrivateData_new = Ok (np, pd0) ->
  SetupDistribution parameters0 pd0 = Ok pd ->
  Z.of_nat (length beta_vector) = K ->
  0 <= r <= c -> c < K ->
  cached_solution_ pd = [] /\
  AttributeGradientWithRespectToParameter pd parameters beta_vector
    (param_index K r c) r = Fail OutOfRange /\
  forall col_index, col_index <> r ->
    AttributeGradientWithRespectToParameter pd parameters beta_vector
      (param_index K r c) col_index = Ok 0%float.
Proof.
  intros HK Hv HInit HSetup Hbeta Hr Hc.
  assert (Hctx : context_for K pd).
  { eapply context_SetupDistribution; [|exact HSetup].
    eapply context_Init; [exact Hv | exact HInit]. }
  assert (Hcached : cached_solution_ pd = []).
  { apply SetupDistribution_frame in HSetup as (m & ->). simpl.
    apply Init_frame in HInit as (_ & -> & _). reflexivity. }
  split; [exact Hcached|].
  pose proof (gradient_target_read K pd parameters beta_vector r c HK
                (context_for_layout K pd HK Hctx) Hbeta Hr Hc) as Hgrad.
  split.
  - rewrite Hgrad, Z.eqb_refl, Hcached. apply at_index_beyond. simpl. lia.
  - intros col_index Hcol. rewrite Hgrad.
    destruct (Z.eqb_spec col_index r); [contradiction | reflexivity].
Qed.

Lemma AttributeGradient_before_precompute_witness :
  cached_solution_ context_K2_Setup = [] /\
  AttributeGradientWithRespectToParameter context_K2_Setup [1; 2; 3; 4; 5]%float
    [2; 3]%float (param_index 2 1 1) 1 = Fail OutOfRange /\
  forall col_index, col_index <> 1 ->
    AttributeGradientWithRespectToParameter context_K2_Setup
      [1; 2; 3; 4; 5]%float [2; 3]%float (param_index 2 1 1) col_index
    = Ok 0%float.
Proof.
  apply (AttributeGradient_before_precompute 2 [2] 5 context_K2_Init
           context_K2_Setup [1; 2; 3; 4; 5]%float [1; 2; 3; 4; 5]%float
           [2; 3]%float 1 1);
    [unfold max_dimension; lia | reflexivity | reflexivity | reflexivity
    | reflexivity | lia | lia].
Defined.

(** ** Draws *)

Section Draws.

Context {rng : Type}.
Variable RandGaussian : float -> rng -> float * rng.

Lemma draw_length (n : nat) (g : rng) :
  length (fst (draw RandGaussian n g)) = n.
Proof.
  revert g. induction n as [|n IH]; intros g; simpl; [reflexivity|].
  destruct (RandGaussian 1%float g) as [x g1]. specialize (IH g1).
  destruct (draw RandGaussian n g1) as [xs g2]. simpl in *. lia.
Qed.

Lemma DrawBeta_length (pd : PrivateData) (parameters : list float) (g : rng) (K : Z) :
  0 <= K -> arma.n_rows (cholesky_factor_ pd) = K ->
  arma.n_cols (cholesky_factor_ pd) = K ->
  K <= Z.of_nat (length parameters) ->
  exists beta,
    fst (DrawBeta RandGaussian pd parameters g) = Ok beta /\
    Z.of_nat (length beta) = K.
Proof.
  intros HK Hrows Hcols Hlen. unfold DrawBeta. rewrite Hcols.
  pose proof (draw_length (Z.to_nat K) g) as Hz.
  destruct (draw RandGaussian (Z.to_nat K) g) as [z g']. simpl in Hz. simpl.
  unfold view. destruct (Nat.leb_spec (Z.to_nat K) (length parameters)); [|lia].
  simpl. unfold arma.mat_vec. rewrite Hcols, Hrows.
  destruct (Z.eqb_spec K (Z.of_nat (length z))); [|lia]. simpl.
  unfold arma.vec_add. rewrite length_fmap, length_seqZ, length_take.
  destruct (Nat.eqb_spec (Z.to_nat K) (Z.to_nat K `min` length parameters)); [|lia].
  eexists. split; [reflexivity|].
  rewrite length_zip_with, length_fmap, length_seqZ, length_take. lia.
Qed.

End Draws.

(** X12. Before any [SetupDistribution], in a context that [Init] built
    from a new [PrivateData], the factor has no columns: [DrawBeta] calls
    the generator not once and returns the empty draw, whatever the
    dimension and the parameters. *)
Theorem DrawBeta_before_setup (rng : Type)
    (RandGaussian : float -> rng -> float * rng)
    (attribute_dimensions_in : list Z) (np : Z) (pd : PrivateData)
    (parameters : list float) (g : rng) :
  Init attribute_dimensions_in PrivateData_new = Ok (np, pd) ->
  DrawBeta RandGaussian pd parameters g = (Ok [], g).
Proof.
  intros HInit. apply Init_frame in HInit as (_ & _ & Hfactor).
  unfold DrawBeta. rewrite Hfactor. reflexivity.
Qed.

Lemma DrawBeta_before_setup_witness :
  Init [2] PrivateData_new = Ok (5, context_K2_Init) /\
  DrawBeta constant_one context_K2_Init [1; 2; 3; 4; 5]%float tt = (Ok [], tt).
Proof.
  split; [reflexivity|].
  apply (DrawBeta_before_setup unit constant_one [2] 5 context_K2_Init).
  reflexivity.
Defined.

(** ** From a parameter change to the gradient *)

(** X13. The calls compose. In a context for dimension [K], once
    [SetupDistribution] has returned for parameters whose diagonal factor
    entries are all nonzero, [DrawBeta] returns a draw of [K] entries for
    every generator, [SamplingAccumulatePrecompute] returns for every draw of
    [K] entries and caches [K] entries, and every gradient query after it
    with a parameter index in [[0, num_parameters K)] returns a value. *)
Theorem draw_precompute_gradient (rng : Type)
    (RandGaussian : float -> rng -> float * rng) (K : Z) (pd0 pd : PrivateData)
    (parameters : list float) (g : rng) :
  1 <= K <= max_dimension -> context_for K pd0 ->
  SetupDistribution parameters pd0 = Ok pd ->
  (forall r, 0 <= r < K ->
     exists x, at_index parameters (param_index K r r) = Ok x /\
               PrimFloat.eqb x 0%float = false) ->
  (exists beta,
     fst (DrawBeta RandGaussian pd parameters g) = Ok beta /\
     Z.of_nat (length beta) = K) /\
  (forall beta, Z.of_nat (length beta) = K ->
     exists pd',
       SamplingAccumulatePrecompute parameters beta pd = Ok pd' /\
       Z.of_nat (length (cached_solution_ pd')) = K /\
       forall row_index col_index, 0 <= row_index < num_parameters K ->
         exists v,
           AttributeGradientWithRespectToParameter pd' parameters beta
             row_index col_index = Ok v).
Proof.
  intros HK Hctx HSetup Hdiag.
  pose proof (context_for_layout K pd0 HK Hctx) as Hlay.
  pose proof (num_parameters_bound K HK) as Hnp.
  destruct (Z.lt_ge_cases (Z.of_nat (length parameters)) (num_parameters K))
    as [Hshort|Hlen].
  { rewrite (SetupDistribution_short K HK parameters pd0 Hlay Hshort) in HSetup.
    discriminate HSetup. }
  destruct (SetupDistribution_reads K HK parameters pd0 Hlay Hlen)
    as (m & HSetup' & Hrows & Hcols & _ & Hup).
  rewrite HSetup in HSetup'. injection HSetup' as ->. split.
  - apply DrawBeta_length; simpl; lia.
  - intros beta Hbeta.
    pose proof (SamplingAccumulatePrecompute_returns parameters beta
                  (with_cholesky_factor pd0 m)) as Hpre.
    simpl in Hpre. specialize (Hpre ltac:(lia) ltac:(lia) ltac:(lia)).
    eexists. split; [exact Hpre|].
    set (pd' := with_cached_solution _ _) in *.
    pose proof (SamplingAccumulatePrecompute_cached_length _ _ _ _ Hpre) as Hcl.
    split; [lia|]. intros row_index col_index Hrow.
    assert (Hlay' : layout K pd').
    { apply SamplingAccumulatePrecompute_frame in Hpre as (x & -> & _).
      apply layout_with_cached_solution, layout_with_cholesky_factor, Hlay. }
    destruct (Z.lt_ge_cases row_index K) as [Hmean|Hfactor].
    + eexists. apply gradient_mean_block; int_range.
    + destruct (gradient_factor_block K pd' parameters beta row_index HK Hlay'
                  ltac:(lia) Hbeta ltac:(lia))
        as (target & start_index & x & _ & _ & _ & _ & Hgrad).
      eexists. apply Hgrad.
Qed.

Lemma draw_precompute_gradient_witness :
  SetupDistribution [1; 2; 3; 4; 5]%float context_K2_Init = Ok context_K2_Setup /\
  (exists beta,
     fst (DrawBeta constant_one context_K2_Setup [1; 2; 3; 4; 5]%float tt)
     = Ok beta /\
     Z.of_nat (length beta) = 2) /\
  (forall beta, Z.of_nat (length beta) = 2 ->
     exists pd',
       SamplingAccumulatePrecompute [1; 2; 3; 4; 5]%float beta context_K2_Setup
       = Ok pd' /\
       Z.of_nat (length (cached_solution_ pd')) = 2 /\
       forall row_index col_index, 0 <= row_index < num_parameters 2 ->
         exists v,
           AttributeGradientWithRespectToParameter pd' [1; 2; 3; 4; 5]%float beta
             row_index col_index = Ok v).
Proof.
  split; [reflexivity|].
  apply (draw_precompute_gradient unit constant_one 2 context_K2_Init
           context_K2_Setup [1; 2; 3; 4; 5]%float tt);
    [unfold max_dimension; lia | exact context_K2_Init_for | reflexivity |].
  intros r Hr. assert (r = 0 \/ r = 1) as [-> | ->] by lia.
  - exists 3%float. split; reflexivity.
  - exists 5%float. split; reflexivity.
Defined.
